(** * Resource resolution in workload-automation

    A shallow embedding of [wa/framework/resource.py] (resource kinds, the
    package predicate matchers, the resolver) and of the metadata cache of
    [wa/utils/android.py], with the properties the specification states
    about them.

    Conventions.
    - A Python [str] is a [string]; the model covers strings whose code
      points are below 256.  [None] is [None] of an option type.
    - A call that may raise returns a [result]; code that reads or writes
      the file system or the module-level cache runs in the monad [M].
    - A Python [dict] keyed by strings is a [gmap string _]. *)

From Stdlib Require Import ZArith Ascii String List Bool Sorted DecimalString.
From stdpp Require Import base option list gmap strings sorting.

Local Open Scope Z_scope.

(** ** Exceptions and results

    The constructors name the exception classes the modelled code raises;
    message texts are left out. *)

Inductive exn : Type :=
  | ResourceError
  | ValueError
  | FileNotFoundError (path : string)
  | IndexError
  | UnboundLocalError
  | ReError.

Inductive result (A : Type) : Type :=
  | Ok (a : A)
  | Raise (e : exn).
Arguments Ok {A} a.
Arguments Raise {A} e.

Definition is_Ok {A} (r : result A) : bool :=
  match r with Ok _ => true | Raise _ => false end.

(** ** Python helpers *)

Module Py.

(** Truth value of an [Optional[str]]: [None] and [''] are false. *)
Definition truthy_str (s : option string) : bool :=
  match s with
  | None => false
  | Some s => negb (String.eqb s EmptyString)
  end.

(** Truth value of an optional list: [None] and [[]] are false. *)
Definition truthy_list {A} (l : option (list A)) : bool :=
  match l with
  | None | Some [] => false
  | Some (_ :: _) => true
  end.

(** [x in l] for a list of strings. *)
Definition str_in (x : string) (l : list string) : bool :=
  existsb (String.eqb x) l.

(** [a == b] where [a] is a [str] and [b] an [Optional[str]]. *)
Definition str_eq_opt (a : string) (b : option string) : bool :=
  match b with
  | None => false
  | Some b => String.eqb a b
  end.

(** [a == b] on two [Optional[str]]. *)
Definition opt_str_eqb (a b : option string) : bool :=
  match a, b with
  | None, None => true
  | Some a, Some b => String.eqb a b
  | _, _ => false
  end.

End Py.

(** ** [os.path] (posixpath) and [str] methods *)

Module OsPath.

(** [p.rfind(c)]: the highest index of [c] in [p], or [-1]. *)
Fixpoint rfind_from (i : Z) (p : string) (c : ascii) (acc : Z) : Z :=
  match p with
  | EmptyString => acc
  | String a p' =>
      rfind_from (i + 1) p' c (if Ascii.eqb a c then i else acc)
  end.

Definition rfind (p : string) (c : ascii) : Z := rfind_from 0 p c (-1).

(** [p[i:]] and [p[:i]] for [0 <= i]. *)
Fixpoint drop_str (n : nat) (p : string) : string :=
  match n, p with
  | O, _ => p
  | S _, EmptyString => EmptyString
  | S n', String _ p' => drop_str n' p'
  end.

Fixpoint take_str (n : nat) (p : string) : string :=
  match n, p with
  | O, _ => EmptyString
  | S _, EmptyString => EmptyString
  | S n', String a p' => String a (take_str n' p')
  end.

Definition slice_from (p : string) (i : Z) : string :=
  drop_str (Z.to_nat i) p.
Definition slice_to (p : string) (i : Z) : string :=
  take_str (Z.to_nat i) p.

(** [p[i:i+1] != '.'] *)
Definition not_dot_at (p : string) (i : Z) : bool :=
  negb (String.eqb (take_str 1 (slice_from p i)) ".").

(** [basename]: [i = p.rfind('/') + 1; return p[i:]]. *)
Definition basename (p : string) : string :=
  slice_from p (rfind p "/" + 1).

(** The [while filenameIndex < dotIndex] loop of [genericpath._splitext]:
    [true] when a character other than ['.'] occurs in
    [p[filenameIndex:dotIndex]].  The loop runs at most
    [dotIndex - filenameIndex] times, which is the fuel given below. *)
Fixpoint splitext_scan (fuel : nat) (p : string) (filenameIndex dotIndex : Z)
  : bool :=
  match fuel with
  | O => false
  | S fuel' =>
      if filenameIndex <? dotIndex then
        if not_dot_at p filenameIndex then true
        else splitext_scan fuel' p (filenameIndex + 1) dotIndex
      else false
  end.

(** [splitext]: the extension starts at the last dot of the last path
    component; leading dots of that component do not start one. *)
Definition splitext (p : string) : string * string :=
  let sepIndex := rfind p "/" in
  let dotIndex := rfind p "." in
  if (dotIndex >? sepIndex)
     && splitext_scan (Z.to_nat (dotIndex - (sepIndex + 1))) p
          (sepIndex + 1) dotIndex
  then (slice_to p dotIndex, slice_from p dotIndex)
  else (p, EmptyString).

End OsPath.

Module Str.

(** [str.lower] on one code point below 256: the upper-case letters of
    ASCII and of Latin-1 move up by 32. *)
Definition lower_ascii (c : ascii) : ascii :=
  let n := N_of_ascii c in
  if ((65 <=? n) && (n <=? 90) || (192 <=? n) && (n <=? 214)
      || (216 <=? n) && (n <=? 222))%N
  then ascii_of_N (n + 32) else c.

Fixpoint lower (s : string) : string :=
  match s with
  | EmptyString => EmptyString
  | String c s' => String (lower_ascii c) (lower s')
  end.

(** [s.split(sep)] for a one-character separator: never empty. *)
Fixpoint split (sep : ascii) (s : string) : list string :=
  match s with
  | EmptyString => [EmptyString]
  | String c s' =>
      if Ascii.eqb c sep then EmptyString :: split sep s'
      else match split sep s' with
           | [] => [String c EmptyString]
           | w :: ws => String c w :: ws
           end
  end.

(** [pattern in s]: [pattern] occurs in [s] as a substring. *)
Fixpoint contains (pattern s : string) : bool :=
  String.prefix pattern s
  || match s with
     | EmptyString => false
     | String _ s' => contains pattern s'
     end.

End Str.

(** ** [wa.utils.types] *)

Module Types.

(** A value that is a string or a list of strings. *)
Inductive StrOrList : Type :=
  | OneStr (s : string)
  | StrList (l : list string).

(** Modelled from the spec: [wa.utils.types.list_or_string] is not among
    the sources.  The spec (4.3) speaks of the "(possibly single-element)
    requested version list": a single string stands for the one-element
    list, a list for itself. *)
Definition list_or_string (value : StrOrList) : list string :=
  match value with
  | OneStr s => [s]
  | StrList l => l
  end.

(** Truth value of an [Optional[Union[str, List[str]]]]. *)
Definition truthy (value : option StrOrList) : bool :=
  match value with
  | None => false
  | Some (OneStr s) => negb (String.eqb s EmptyString)
  | Some (StrList l) => negb (Nat.eqb (length l) 0)
  end.

(** [enum(['package', 'remote', 'lan', 'local', 'perferred'],
    start=0, step=10)]: the level values of [SourcePriority]. *)
Module SourcePriority.
Definition package : Z := 0.
Definition remote : Z := 10.
Definition lan : Z := 20.
Definition local : Z := 30.
Definition perferred : Z := 40.
End SourcePriority.

(** *** Version tuples *)

(** The comparable atoms of a version tuple: a numeric segment is
    coerced to a number, any other segment stays a string. *)
Inductive atom : Type :=
  | Num (n : N)
  | Seg (s : string).

Definition is_digit (c : ascii) : bool :=
  let n := N_of_ascii c in ((48 <=? n) && (n <=? 57))%N.

Fixpoint all_digits (s : string) : bool :=
  match s with
  | EmptyString => true
  | String c s' => is_digit c && all_digits s'
  end.

Fixpoint int_of_digits (acc : N) (s : string) : N :=
  match s with
  | EmptyString => acc
  | String c s' => int_of_digits (10 * acc + (N_of_ascii c - 48))%N s'
  end.

Definition atom_of_segment (s : string) : atom :=
  if negb (String.eqb s EmptyString) && all_digits s
  then Num (int_of_digits 0%N s) else Seg s.

(** Modelled from the spec: [wa.utils.types.version_tuple] is not among
    the sources.  The spec (4.1) has it split a version string into its
    dot-delimited parts, coerce the numeric parts so that tuple
    comparison follows version ordering, and give the empty sequence for
    an empty or null input. *)
Definition version_tuple (v : option string) : list atom :=
  match v with
  | None => []
  | Some s =>
      if String.eqb s EmptyString then []
      else map atom_of_segment (Str.split "." s)
  end.

(** The spec calls the atoms comparable: numbers compare by value,
    strings by code point, and a number sorts before a string. *)
Definition atom_compare (a b : atom) : comparison :=
  match a, b with
  | Num m, Num n => N.compare m n
  | Seg s, Seg t => String.compare s t
  | Num _, Seg _ => Lt
  | Seg _, Num _ => Gt
  end.

Definition atom_eqb (a b : atom) : bool :=
  match atom_compare a b with Eq => true | _ => false end.
Definition atom_ltb (a b : atom) : bool :=
  match atom_compare a b with Lt => true | _ => false end.
Definition atom_gtb (a b : atom) : bool :=
  match atom_compare a b with Gt => true | _ => false end.
Definition atom_leb (a b : atom) : bool := negb (atom_gtb a b).
Definition atom_geb (a b : atom) : bool := negb (atom_ltb a b).

(** Python's comparison of two tuples: the first pair of items that
    differ decides with the item comparison [op]; when one tuple runs
    out first, the lengths decide with [op_len]. *)
Fixpoint tuple_richcmp (op : atom -> atom -> bool)
    (op_len : nat -> nat -> bool) (v w : list atom) : bool :=
  match v, w with
  | x :: v', y :: w' =>
      if atom_eqb x y then tuple_richcmp op op_len v' w' else op x y
  | _, _ => op_len (length v) (length w)
  end.

Definition tuple_lt := tuple_richcmp atom_ltb Nat.ltb.
Definition tuple_gt := tuple_richcmp atom_gtb (fun m n => Nat.ltb n m).
Definition tuple_le := tuple_richcmp atom_leb Nat.leb.
Definition tuple_ge := tuple_richcmp atom_geb (fun m n => Nat.leb n m).

(** *** Priority-ordered source list *)

Module PriorityList.

  (** Modelled from the spec: [wa.utils.types.prioritylist] is not among the
  sources.  The spec (4.5) describes a container with
  [add(source, priority)] whose iteration yields the elements from
  highest to lowest priority and, within one priority, in insertion
  order.  The container keeps its entries in iteration order: [add]
  places the new entry behind every entry of greater or equal
  priority. *)
Abbreviation prioritylist A := (list (Z * A)) (only parsing).

Definition empty {A} : prioritylist A := [].

Fixpoint add {A} (x : A) (priority : Z) (pl : prioritylist A)
: prioritylist A :=
match pl with
| [] => [(priority, x)]
| (q, y) :: rest =>
    if q <? priority then (priority, x) :: (q, y) :: rest
    else (q, y) :: add x priority rest
end.

  (** Forward iteration ([__iter__]). *)
Definition iter {A} (pl : prioritylist A) : list A := map snd pl.

(** The order of two entries met in this order by an iteration from
    highest to lowest priority. *)
Definition by_priority {A} (a b : Z * A) : Prop := fst b <= fst a.

(** The entries of priority [p], in the order of the list. *)
Definition tier {A} (p : Z) (pl : list (Z * A)) : list (Z * A) :=
  filter (fun e => fst e = p) pl.

End PriorityList.

End Types.

(** ** [wa.utils.android]: package metadata and its cache *)

(** The serialized form of a metadata record (a "pod"): the table
    [to_pod] builds, one field per key. *)
Module Pod.

Record t : Type := mk {
  _pod_version : nat;
  path : option string;
  package : option string;
  activity : option string;
  label : option string;
  version_name : option string;
  version_code : option string;
  native_code : option (list string);
  permissions : list string;
  _apk_path : option string;
  _activities : list string;
  _methods : list string
}.

End Pod.

Module ApkInfo.

(** The attributes of devlib's [ApkInfo] that [from_pod] and [to_pod]
    touch.  devlib extracts [activities] and [methods] from the package
    file on first use; the model holds the extracted values. *)
Record t : Type := mk {
  path : option string;
  package : option string;
  activity : option string;
  label : option string;
  version_name : option string;
  version_code : option string;
  native_code : option (list string);
  permissions : list string;
  _apk_path : option string;
  _activities : list string;
  _methods : list string
}.

Definition _pod_serialization_version : nat := 1.

(** The [activities] and [methods] properties. *)
Definition activities (self : t) : list string := _activities self.
Definition methods (self : t) : list string := _methods self.

Definition from_pod (pod : Pod.t) : t :=
  {| path := Pod.path pod;
     package := Pod.package pod;
     activity := Pod.activity pod;
     label := Pod.label pod;
     version_name := Pod.version_name pod;
     version_code := Pod.version_code pod;
     native_code := Pod.native_code pod;
     permissions := Pod.permissions pod;
     _apk_path := Pod._apk_path pod;
     _activities := Pod._activities pod;
     _methods := Pod._methods pod |}.

(** [super().to_pod()] contributes the [_pod_version] entry, which
    [__init__] set to [_pod_serialization_version]. *)
Definition to_pod (self : t) : Pod.t :=
  {| Pod._pod_version := _pod_serialization_version;
     Pod.path := path self;
     Pod.package := package self;
     Pod.activity := activity self;
     Pod.label := label self;
     Pod.version_name := version_name self;
     Pod.version_code := version_code self;
     Pod.native_code := native_code self;
     Pod.permissions := permissions self;
     Pod._apk_path := _apk_path self;
     Pod._activities := activities self;
     Pod._methods := methods self |}.

End ApkInfo.

(** *** The file system *)

(** A package file on the host: the modification time as [str.format]
    prints it, and the metadata that devlib's [ApkInfo(path)] extracts
    from the file. *)
Record HostFile : Type := {
  st_mtime : string;
  extracted : ApkInfo.t
}.

(** A persisted cache file: its [os.stat] result, which the code only
    compares for equality, and the table it holds.  A file written by
    [write_pod] reads back with [read_pod] as the same table. *)
Record PodFile : Type := {
  pf_stat : Z;
  pf_table : gmap string Pod.t
}.

(** The host's files.  [stat_of_write n] is the [os.stat] result the file
    system gives to the [n]-th file written; [writes] counts them.  Cache
    files and package files are kept apart. *)
Record Disk : Type := {
  apks : gmap string HostFile;
  pods : gmap string PodFile;
  writes : nat;
  stat_of_write : nat -> Z
}.

(** Modelled from the spec: [wa.utils.serializer.write_pod] and
    [wa.utils.misc.atomic_write_path] are not among the sources.  The spec
    (4.2) has the whole table persisted atomically, by writing a temporary
    file and renaming it: afterwards the file at [path] holds [table]. *)
Definition write_pod (table : gmap string Pod.t) (path : string) (d : Disk)
  : Disk :=
  {| apks := apks d;
     pods := <[path := {| pf_stat := stat_of_write d (writes d);
                          pf_table := table |}]> (pods d);
     writes := S (writes d);
     stat_of_write := stat_of_write d |}.

(** [os.stat(path)] of a cache file. *)
Definition os_stat (path : string) (d : Disk) : option Z :=
  pf_stat <$> pods d !! path.

Module ApkInfoCache.

Record t : Type := mk {
  path : string;
  last_modified : option Z;
  cache : gmap string Pod.t
}.

Definition _update_cache (self : t) (d : Disk) : t :=
  match pods d !! path self with
  | None => self
  | Some f =>
      if bool_decide (last_modified self = Some (pf_stat f)) then self
      else {| path := path self;
              last_modified := Some (pf_stat f);
              cache := pf_table f |}
  end.

(** [__init__]; creating the cache directory ([_check_env]) leaves the
    files of the model as they are. *)
Definition init (path : string) (d : Disk) : t :=
  _update_cache {| path := path; last_modified := None; cache := ∅ |} d.

(** [store] returns the outcome, the instance and the disk after the
    call. *)
Definition store (self : t) (apk_info : ApkInfo.t) (apk_id : string)
    (overwrite : bool) (d : Disk) : result unit * t * Disk :=
  let self1 := _update_cache self d in
  if bool_decide (is_Some (cache self1 !! apk_id)) && negb overwrite
  then (Raise ValueError, self1, d)
  else
    let table := <[apk_id := ApkInfo.to_pod apk_info]> (cache self1) in
    let d' := write_pod table (path self1) d in
    (Ok tt,
     {| path := path self1;
        last_modified := os_stat (path self1) d';
        cache := table |},
     d').

(** [get_info] returns the record and the instance after the call.  A pod
    written by [to_pod] is never the empty table, so [if pod] tests only
    for a missing key. *)
Definition get_info (self : t) (key : string) (d : Disk)
  : option ApkInfo.t * t :=
  let self1 := _update_cache self d in
  (ApkInfo.from_pod <$> cache self1 !! key, self1).

(** The instance and the disk that a successful [store] is shown below to
    leave: the re-synchronized table with the new entry, in memory and in
    the file. *)
Definition stored (self : t) (apk_info : ApkInfo.t) (apk_id : string)
    (d : Disk) : t * Disk :=
  let table :=
    <[apk_id := ApkInfo.to_pod apk_info]> (cache (_update_cache self d)) in
  ({| path := path self;
      last_modified := Some (stat_of_write d (writes d));
      cache := table |},
   write_pod table (path self) d).

End ApkInfoCache.

(** *** The state of the program *)

(** The files and the module-level variable [apk_info_cache], which is
    [None] until the module has created its [ApkInfoCache()]. *)
Record World : Type := {
  disk : Disk;
  apk_info_cache : option ApkInfoCache.t
}.

(** Computations that read and change the [World] and may raise. *)
Definition M (A : Type) : Type := World -> result A * World.

Definition ret {A} (a : A) : M A := fun w => (Ok a, w).
Definition raise {A} (e : exn) : M A := fun w => (Raise e, w).
Definition bind {A B} (c : M A) (k : A -> M B) : M B :=
  fun w =>
    match c w with
    | (Ok a, w') => k a w'
    | (Raise e, w') => (Raise e, w')
    end.
Definition lift {A} (r : result A) : M A := fun w => (r, w).

Declare Scope m_scope.
Delimit Scope m_scope with M.
Notation "x <- c ;; k" := (bind c (fun x => k))
  (at level 100, c at next level, right associativity) : m_scope.

(** The key under which the metadata of [path] is cached:
    ['{}-{}'.format(path, modified)]. *)
Definition apk_id_of (path : string) (modified : string) : string :=
  (path ++ "-" ++ modified)%string.

(** [if apk_info_cache] and [if info] test objects without [__bool__] or
    [__len__], that is, whether they are [None].  The extraction by devlib
    and the write of the cache file are taken to succeed: the function
    catches nothing, and what it does when they raise is outside the
    model. *)
Definition get_cacheable_apk_info (path : option string)
  : M (option ApkInfo.t) :=
  fun w =>
    match path with
    | None => (Ok None, w)
    | Some p =>
        if String.eqb p EmptyString then (Ok None, w)
        else
          match apks (disk w) !! p with
          | None => (Raise (FileNotFoundError p), w)
          | Some f =>
              let apk_id := apk_id_of p (st_mtime f) in
              match apk_info_cache w with
              | Some c =>
                  let '(info, c1) :=
                    ApkInfoCache.get_info c apk_id (disk w) in
                  match info with
                  | Some i =>
                      (Ok (Some i),
                       {| disk := disk w; apk_info_cache := Some c1 |})
                  | None =>
                      let i := extracted f in
                      let '(r, c2, d') :=
                        ApkInfoCache.store c1 i apk_id true (disk w) in
                      let w' := {| disk := d'; apk_info_cache := Some c2 |} in
                      match r with
                      | Ok _ => (Ok (Some i), w')
                      | Raise e => (Raise e, w')
                      end
                  end
              | None =>
                  (* [msg] is assigned on neither branch *)
                  (Raise UnboundLocalError, w)
              end
          end
    end.

(** ** [wa.framework.resource]: the predicate matchers *)

Import Types.

(** [config_version_tuple[i] != apk_version_tuple[i]]; an index out of
    range raises. *)
Definition items_differ (config_version_tuple apk_version_tuple : list atom)
    (i : nat) : result bool :=
  match config_version_tuple !! i, apk_version_tuple !! i with
  | Some x, Some y => Ok (negb (atom_eqb x y))
  | _, _ => Raise IndexError
  end.

(** The loop [for i in range(len(config_version_tuple))], over the
    indices still to visit. *)
Fixpoint loose_version_scan (config_version_tuple apk_version_tuple : list atom)
    (indices : list nat) : result bool :=
  match indices with
  | [] => Ok true
  | i :: rest =>
      match items_differ config_version_tuple apk_version_tuple i with
      | Raise e => Raise e
      | Ok true => Ok false
      | Ok false =>
          loose_version_scan config_version_tuple apk_version_tuple rest
      end
  end.

Definition loose_version_matching (config_version : string)
    (apk_version : option string) : result bool :=
  let config_version_tuple := version_tuple (Some config_version) in
  let apk_version_tuple := version_tuple apk_version in
  if (length apk_version_tuple <? length config_version_tuple)%nat
  then Ok false
  else loose_version_scan config_version_tuple apk_version_tuple
         (seq 0 (length config_version_tuple)).

Definition range_version_matching (apk_version min_version max_version
    : option string) : bool :=
  if negb (Py.truthy_str apk_version) then false
  else
    let apk_version_tuple :=
      version_tuple (Some (default EmptyString apk_version)) in
    if Py.truthy_str max_version
       && tuple_gt apk_version_tuple (version_tuple max_version)
    then false
    else if Py.truthy_str min_version
            && tuple_lt apk_version_tuple (version_tuple min_version)
    then false
    else true.

(** The loop of [apk_version_matches] over the requested versions. *)
Fixpoint apk_version_scan (info : option ApkInfo.t) (version_ : list string)
    : result bool :=
  match version_ with
  | [] => Ok false
  | v :: rest =>
      match info with
      | None => apk_version_scan info rest
      | Some i =>
          if Py.str_eq_opt v (ApkInfo.version_name i)
             || Py.str_eq_opt v (ApkInfo.version_code i)
          then Ok true
          else
            match loose_version_matching v (ApkInfo.version_name i) with
            | Raise e => Raise e
            | Ok true => Ok true
            | Ok false => apk_version_scan info rest
            end
      end
  end.

Local Open Scope m_scope.

Definition apk_version_matches (path : string) (version : StrOrList)
    : M bool :=
  let version_ := list_or_string version in
  info <- get_cacheable_apk_info (Some path) ;;
  lift (apk_version_scan info version_).

Definition apk_version_matches_range (path : string)
    (min_version max_version : option string) : M bool :=
  info <- get_cacheable_apk_info (Some path) ;;
  ret (range_version_matching
         (match info with
          | Some i => ApkInfo.version_name i
          | None => Some EmptyString
          end)
         min_version max_version).

Definition uiauto_test_matches (path : string) (uiauto : bool) : M bool :=
  info <- get_cacheable_apk_info (Some path) ;;
  match info with
  | None => ret false
  | Some i =>
      ret (Bool.eqb uiauto
             (Str.contains "com.arm.wa.uiauto"
                (default EmptyString (ApkInfo.package i))))
  end.

Definition package_name_matches (path : string) (package : string)
    : M bool :=
  info <- get_cacheable_apk_info (Some path) ;;
  match info with
  | None => ret false
  | Some i => ret (Py.opt_str_eqb (ApkInfo.package i) (Some package))
  end.

Definition apk_abi_matches (path : string) (supported_abi : StrOrList)
    (exact_abi : bool) : M bool :=
  let supported_abi_ := list_or_string supported_abi in
  info <- get_cacheable_apk_info (Some path) ;;
  match info with
  | None => ret false
  | Some i =>
      if negb (Py.truthy_list (ApkInfo.native_code i)) then ret true
      else
        let native_code := default [] (ApkInfo.native_code i) in
        if exact_abi then
          match supported_abi_ with
          | [] => raise IndexError
          | primary :: _ => ret (Py.str_in primary native_code)
          end
        else
          ret (existsb (fun abi => Py.str_in abi native_code) supported_abi_)
  end.

(** *** What the matchers answer for given metadata

    Each metadata-backed matcher asks [get_cacheable_apk_info] for the
    metadata of the path and then answers from it alone; these are the
    answers as functions of the metadata. *)

Definition uiauto_answer (uiauto : bool) (info : option ApkInfo.t)
    : result bool :=
  match info with
  | None => Ok false
  | Some i =>
      Ok (Bool.eqb uiauto
            (Str.contains "com.arm.wa.uiauto"
               (default EmptyString (ApkInfo.package i))))
  end.

Definition package_answer (package : string) (info : option ApkInfo.t)
    : result bool :=
  match info with
  | None => Ok false
  | Some i => Ok (Py.opt_str_eqb (ApkInfo.package i) (Some package))
  end.

Definition version_answer (version : StrOrList) (info : option ApkInfo.t)
    : result bool :=
  apk_version_scan info (list_or_string version).

Definition range_answer (min_version max_version : option string)
    (info : option ApkInfo.t) : result bool :=
  Ok (range_version_matching
        (match info with
         | Some i => ApkInfo.version_name i
         | None => Some EmptyString
         end)
        min_version max_version).

Definition abi_answer (supported_abi : StrOrList) (exact_abi : bool)
    (info : option ApkInfo.t) : result bool :=
  match info with
  | None => Ok false
  | Some i =>
      if negb (Py.truthy_list (ApkInfo.native_code i)) then Ok true
      else if exact_abi then
        match list_or_string supported_abi with
        | [] => Raise IndexError
        | primary :: _ =>
            Ok (Py.str_in primary (default [] (ApkInfo.native_code i)))
        end
      else
        Ok (existsb
              (fun abi =>
                 Py.str_in abi (default [] (ApkInfo.native_code i)))
              (list_or_string supported_abi))
  end.

Section WithRe.

(** [re_search pattern s] is whether [re.search(pattern, s)] finds a
    match; it raises when [pattern] is not a regular expression. *)
Context (re_search : string -> string -> result bool).

Definition file_name_matches (path : string) (pattern : string)
    : result bool :=
  let filename := OsPath.basename path in
  if Str.contains pattern filename then Ok true
  else
    match re_search pattern filename with
    | Raise e => Raise e
    | Ok true => Ok true
    | Ok false => Ok false
    end.

(** ** The resource kinds *)

Record ApkFile : Type := {
  apk_owner : string;
  variant : option string;
  version : option StrOrList;
  package : option string;
  uiauto : bool;
  exact_abi : bool;
  supported_abi : option (list string);
  min_version : option string;
  max_version : option string
}.

(** [ApkFile(owner)] with every other parameter at its default. *)
Definition ApkFile_default (owner : string) : ApkFile :=
  {| apk_owner := owner; variant := None; version := None; package := None;
     uiauto := false; exact_abi := false; supported_abi := None;
     min_version := None; max_version := None |}.

Definition ApkFile_match_path (self : ApkFile) (path : string) : bool :=
  let ext := Str.lower (snd (OsPath.splitext path)) in
  String.eqb ext ".apk".

Definition ApkFile_match (self : ApkFile) (path : string) : M bool :=
  uiauto_matches <- uiauto_test_matches path (uiauto self) ;;
  version_matches <-
    match version self with
    | Some v =>
        if truthy (version self) then apk_version_matches path v
        else ret true
    | None => ret true
    end ;;
  version_range_matches <-
    (if Py.truthy_str (max_version self) || Py.truthy_str (min_version self)
     then apk_version_matches_range path (min_version self)
            (max_version self)
     else ret true) ;;
  name_matches <-
    match variant self with
    | Some v =>
        if Py.truthy_str (variant self) then lift (file_name_matches path v)
        else ret true
    | None => ret true
    end ;;
  package_matches <-
    match package self with
    | Some p =>
        if Py.truthy_str (package self) then package_name_matches path p
        else ret true
    | None => ret true
    end ;;
  abi_matches <-
    match supported_abi self with
    | Some l =>
        if Py.truthy_list (supported_abi self)
        then apk_abi_matches path (StrList l) (exact_abi self)
        else ret true
    | None => ret true
    end ;;
  ret (name_matches && version_matches && version_range_matches
       && uiauto_matches && package_matches && abi_matches).

(** *** The predicates of a package resource, one at a time

    What each predicate answers for a resource and a path when it is
    evaluated on its own in the state [w]; a predicate whose parameter is
    not supplied ([None], empty) answers [True].  The UI-automation
    predicate has no such case: [uiauto] is a flag, [False] when the caller
    leaves it out. *)

Definition uiauto_predicate (self : ApkFile) (path : string) (w : World)
    : result bool :=
  fst (uiauto_test_matches path (uiauto self) w).

Definition version_predicate (self : ApkFile) (path : string) (w : World)
    : result bool :=
  match version self with
  | Some v =>
      if truthy (version self) then fst (apk_version_matches path v w)
      else Ok true
  | None => Ok true
  end.

Definition version_range_predicate (self : ApkFile) (path : string)
    (w : World) : result bool :=
  if Py.truthy_str (max_version self) || Py.truthy_str (min_version self)
  then fst (apk_version_matches_range path (min_version self)
              (max_version self) w)
  else Ok true.

Definition name_predicate (self : ApkFile) (path : string) : result bool :=
  match variant self with
  | Some v =>
      if Py.truthy_str (variant self) then file_name_matches path v
      else Ok true
  | None => Ok true
  end.

Definition package_predicate (self : ApkFile) (path : string) (w : World)
    : result bool :=
  match package self with
  | Some p =>
      if Py.truthy_str (package self) then fst (package_name_matches path p w)
      else Ok true
  | None => Ok true
  end.

Definition abi_predicate (self : ApkFile) (path : string) (w : World)
    : result bool :=
  match supported_abi self with
  | Some l =>
      if Py.truthy_list (supported_abi self)
      then fst (apk_abi_matches path (StrList l) (exact_abi self) w)
      else Ok true
  | None => Ok true
  end.

(** The logical AND of the answers, taken in the given order: the first
    one that raises decides. *)
Definition all_of (answers : list (result bool)) : result bool :=
  fold_right
    (fun answer rest =>
       match answer, rest with
       | Raise e, _ => Raise e
       | Ok _, Raise e => Raise e
       | Ok b, Ok bs => Ok (b && bs)
       end)
    (Ok true) answers.

(** The closed set of resource kinds; the first argument is the owner, as
    [str] prints it. *)
Inductive Resource : Type :=
  | File (owner : string) (path : string)
  | Executable (owner : string) (abi filename : string)
  | ReventFile (owner : string) (stage : string) (target : option string)
  | JarFile (owner : string)
  | Apk (a : ApkFile).

Definition kind (r : Resource) : string :=
  match r with
  | File _ _ => "file"
  | Executable _ _ _ => "executable"
  | ReventFile _ _ _ => "revent"
  | JarFile _ => "jar"
  | Apk _ => "apk"
  end.

Definition match_path (r : Resource) (path : string) : bool :=
  match r with
  | File _ p => String.eqb p path
  | Executable _ _ filename => String.eqb filename (OsPath.basename path)
  | ReventFile _ stage target =>
      let filename := OsPath.basename path in
      let parts := Str.split "." filename in
      match parts with
      | t :: s :: _ :: _ =>
          Py.opt_str_eqb (Some t) target && String.eqb s stage
      | s :: _ => String.eqb s stage
      | [] => false
      end
  | JarFile _ => true
  | Apk a => ApkFile_match_path a path
  end.

(** [Resource.match]: [match_path] unless the kind overrides it. *)
Definition Resource_match (r : Resource) (path : string) : M bool :=
  match r with
  | Apk a => ApkFile_match a path
  | _ => ret (match_path r path)
  end.

End WithRe.

(** ** The resolver *)

Module ResourceResolver.

Import PriorityList.

(** A registered source: a callable from a resource to a path or [None],
    with the name [get_object_name] gives it. *)
Record Source : Type := {
  source_name : string;
  source_call : Resource -> option string
}.

Record t : Type := {
  getters : list string;
  sources : prioritylist Source
}.

Definition init : t := {| getters := []; sources := empty |}.

Definition register (self : t) (source : Source) (priority : Z) : t :=
  {| getters := getters self;
     sources := add source priority (sources self) |}.

(** The loop of [get] over the sources in iteration order: the sources
    called, in call order, and the first path that is not [None]. *)
Fixpoint probe (srcs : list Source) (resource : Resource)
    : list Source * option string :=
  match srcs with
  | [] => ([], None)
  | source :: rest =>
      match source_call source resource with
      | Some result => ([source], Some result)
      | None =>
          let '(called, found) := probe rest resource in
          (source :: called, found)
      end
  end.

(** [get] gives the sources it called and its outcome. *)
Definition get (self : t) (resource : Resource) (strict : bool)
    : list Source * result (option string) :=
  let '(called, found) := probe (iter (sources self)) resource in
  match found with
  | Some result => (called, Ok (Some result))
  | None =>
      if strict then (called, Raise ResourceError)
      else (called, Ok None)
  end.

(** The resolver after the calls [register(source, priority)] of [regs],
    in that order. *)
Definition registered_from (self : t) (regs : list (Source * Z)) : t :=
  fold_left (fun self '(source, priority) => register self source priority)
    regs self.

Definition registered (regs : list (Source * Z)) : t :=
  registered_from init regs.

(** The entry a call [register(source, priority)] adds. *)
Definition entry_of (reg : Source * Z) : Z * Source := (snd reg, fst reg).

(** Whether a source finds the resource. *)
Definition finds (source : Source) (resource : Resource) : Prop :=
  is_Some (source_call source resource).

End ResourceResolver.

(** ** [wa.utils.android]: the launch command *)

(** The values an argument of the launch command may have, by the
    [isinstance] tests of [build_apk_launch_command]: a [str], a [float]
    (with the text [str.format] prints for it), a [bool], any other [int],
    or a value of another type. *)
Inductive PyValue : Type :=
  | VStr (s : string)
  | VFloat (text : string)
  | VBool (b : bool)
  | VInt (n : Z)
  | VOther.

Module Shlex.

(** The characters [shlex.quote] leaves alone: those of
    [[\w@%+=:,./-]] under [re.ASCII]. *)
Definition is_safe (c : ascii) : bool :=
  let n := N_of_ascii c in
  ((48 <=? n) && (n <=? 57) || (65 <=? n) && (n <=? 90)
   || (97 <=? n) && (n <=? 122))%N
  || Str.contains (String c EmptyString) "_@%+=:,./-".

Fixpoint all_safe (s : string) : bool :=
  match s with
  | EmptyString => true
  | String c s' => is_safe c && all_safe s'
  end.

(** [s.replace] of each single quote by a closing quote, a single quote
    between double quotes, and an opening quote. *)
Fixpoint escape_quotes (s : string) : string :=
  match s with
  | EmptyString => EmptyString
  | String c s' =>
      if Ascii.eqb c "'"
      then String "'" (String "034" (String "'" (String "034"
             (String "'" (escape_quotes s')))))
      else String c (escape_quotes s')
  end.

Definition quote (s : string) : string :=
  if String.eqb s EmptyString then "''"
  else if all_safe s then s
  else (String "'" (escape_quotes s) ++ "'")%string.

End Shlex.

(** [str(n)] for an [int]. *)
Definition str_of_int (n : Z) : string := NilZero.string_of_int (Z.to_int n).

(** The [isinstance] chain of the loop: the flag and the text of one
    value, or [ValueError] for a value of another type.  A [bool] is an
    [int] too; the test for [bool] comes first. *)
Definition encode_value (v : PyValue) : result (string * string) :=
  match v with
  | VStr s => Ok ("--es"%string, Shlex.quote s)
  | VFloat text => Ok ("--ef"%string, text)
  | VBool b => Ok ("--ez"%string, if b then "True" else "False")%string
  | VInt n => Ok ("--ei"%string, str_of_int n)
  | VOther => Raise ValueError
  end.

(** The loop over [apk_args.items()], in the order of the dict:
    ['{} {} {} {}'.format(args_string, arg, k, v)]. *)
Fixpoint apk_args_loop (args_string : string)
    (items : list (string * PyValue)) : result string :=
  match items with
  | [] => Ok args_string
  | (k, v) :: rest =>
      match encode_value v with
      | Raise e => Raise e
      | Ok (arg, text) =>
          apk_args_loop
            (args_string ++ " " ++ arg ++ " " ++ k ++ " " ++ text)%string
            rest
      end
  end.

(** [str.format] of an [Optional[str]]. *)
Definition format_opt (s : option string) : string := default "None"%string s.

Definition build_apk_launch_command (package activity : option string)
    (apk_args : option (list (string * PyValue))) : result string :=
  match
    (if Py.truthy_list apk_args
     then apk_args_loop EmptyString (default [] apk_args)
     else Ok EmptyString)
  with
  | Raise e => Raise e
  | Ok args_string =>
      if negb (Py.truthy_str activity)
      then Ok ("am start -W " ++ format_opt package ++ " "
               ++ args_string)%string
      else Ok ("am start -W -n " ++ format_opt package ++ "/"
               ++ format_opt activity ++ " " ++ args_string)%string
  end.

(** *** Notions used to state properties of the launch command *)

Module LaunchNotions.

(** The value has one of the four types the command can encode. *)
Definition supported (v : PyValue) : bool :=
  match v with VOther => false | _ => true end.

(** The text one argument adds to the command: a space, the flag of the
    value's type, the key and the encoded value. *)
Definition arg_text (item : string * PyValue) : string :=
  match encode_value (snd item) with
  | Ok (arg, text) => (" " ++ arg ++ " " ++ fst item ++ " " ++ text)%string
  | Raise _ => EmptyString
  end.

(** The command up to the arguments. *)
Definition head (package activity : option string) : string :=
  if negb (Py.truthy_str activity)
  then ("am start -W " ++ format_opt package ++ " ")%string
  else ("am start -W -n " ++ format_opt package ++ "/"
        ++ format_opt activity ++ " ")%string.

End LaunchNotions.

(** ** Notions used to state properties of paths *)

Module PathNotions.

(** [c not in s]. *)
Fixpoint lacks (c : ascii) (s : string) : bool :=
  match s with
  | EmptyString => true
  | String a s' => negb (Ascii.eqb a c) && lacks c s'
  end.

(** [os.path.join(directory, name)] for a relative [name] and a
    [directory] that does not end in a slash. *)
Definition join (directory name : string) : string :=
  (directory ++ String "/" name)%string.

(** [a + '.' + b]. *)
Definition dotted (a b : string) : string := (a ++ String "." b)%string.

End PathNotions.

(** ** Notions used to state properties of the cache *)

Module CacheNotions.

(** The instance is in step with its file: when the file exists, the
    instance has recorded its [os.stat] result and holds its table. *)
Definition in_sync (self : ApkInfoCache.t) (d : Disk) : Prop :=
  match pods d !! ApkInfoCache.path self with
  | Some f =>
      ApkInfoCache.last_modified self = Some (pf_stat f)
      /\ ApkInfoCache.cache self = pf_table f
  | None => True
  end.

(** The disk after the package file at [path] has been written anew. *)
Definition replace_apk (path : string) (f : HostFile) (d : Disk) : Disk :=
  {| apks := <[path := f]> (apks d);
     pods := pods d;
     writes := writes d;
     stat_of_write := stat_of_write d |}.

End CacheNotions.

(** ** Sample data *)

Module Sample.

Import ResourceResolver.

(** Three sources: [A] and [B] find every resource, [C] finds none. *)
Definition A : Source :=
  {| source_name := "A"; source_call := fun _ => Some "/srv/a"%string |}.
Definition B : Source :=
  {| source_name := "B"; source_call := fun _ => Some "/srv/b"%string |}.
Definition C : Source :=
  {| source_name := "C"; source_call := fun _ => None |}.

(** The registration sequence of the spec (8): [A] at 10, [B] at 20,
    [C] at 10. *)
Definition regs : list (Source * Z) := [(A, 10); (B, 20); (C, 10)].

Definition jar : Resource := JarFile "dhrystone".

(** Two package files: an application with native code, and a
    UI-automation test package without. *)
Definition app_info : ApkInfo.t :=
  {| ApkInfo.path := Some "/apks/app.apk"%string;
     ApkInfo.package := Some "com.example.app"%string;
     ApkInfo.activity := Some ".Main"%string;
     ApkInfo.label := Some "App"%string;
     ApkInfo.version_name := Some "2.5.1"%string;
     ApkInfo.version_code := Some "251"%string;
     ApkInfo.native_code := Some ["arm64-v8a"; "armeabi-v7a"]%string;
     ApkInfo.permissions := [];
     ApkInfo._apk_path := Some "/apks/app.apk"%string;
     ApkInfo._activities := [".Main"%string];
     ApkInfo._methods := [] |}.

Definition uiauto_info : ApkInfo.t :=
  {| ApkInfo.path := Some "/apks/uiauto.apk"%string;
     ApkInfo.package := Some "com.arm.wa.uiauto.dhrystone"%string;
     ApkInfo.activity := None;
     ApkInfo.label := None;
     ApkInfo.version_name := Some "1.0"%string;
     ApkInfo.version_code := Some "1"%string;
     ApkInfo.native_code := None;
     ApkInfo.permissions := [];
     ApkInfo._apk_path := Some "/apks/uiauto.apk"%string;
     ApkInfo._activities := [];
     ApkInfo._methods := [] |}.

Definition disk0 : Disk :=
  {| apks :=
       <["/apks/app.apk"%string :=
           {| st_mtime := "1541030400.0"; extracted := app_info |}]>
       (<["/apks/uiauto.apk"%string :=
            {| st_mtime := "1541030500.5"; extracted := uiauto_info |}]> ∅);
     pods := ∅;
     writes := 0;
     stat_of_write := Z.of_nat |}.

Definition cache_file : string := "/cache/apk_info_cache.json".

(** The state once the module is loaded: no cache file yet. *)
Definition world0 : World :=
  {| disk := disk0;
     apk_info_cache := Some (ApkInfoCache.init cache_file disk0) |}.

(** A regular-expression search that accepts every pattern and finds
    none. *)
Definition re_none (pattern s : string) : result bool := Ok false.

End Sample.

(** * Properties *)

(** ** The priority-ordered source list *)

Section PriorityListFacts.

Import PriorityList.
Context {A : Type}.
Implicit Types (pl : prioritylist A) (x : A) (p q : Z).

Lemma add_Permutation x p pl : add x p pl ≡ₚ (p, x) :: pl.
Proof.
  induction pl as [|[q y] rest IH]; simpl; [done|].
  destruct (q <? p); [done|].
  rewrite IH. apply Permutation_swap.
Qed.

Lemma add_sorted x p pl :
  StronglySorted by_priority pl -> StronglySorted by_priority (add x p pl).
Proof.
  induction pl as [|[q y] rest IH]; simpl; intros Hs.
  - repeat constructor.
  - apply StronglySorted_inv in Hs as [Hrest Hall].
    destruct (Z.ltb_spec q p) as [Hlt|Hge].
    + constructor; [by constructor|].
      constructor; [unfold by_priority; simpl; lia|].
      eapply Forall_impl; [exact Hall|].
      intros [r z]; unfold by_priority; simpl; lia.
    + constructor; [by apply IH|].
      rewrite add_Permutation. constructor; [|done].
      unfold by_priority; simpl; lia.
Qed.

Lemma filter_none (P : Z * A -> Prop) `{!forall e, Decision (P e)}
    (l : list (Z * A)) :
  Forall (fun e => ~ P e) l -> filter P l = [].
Proof.
  induction 1 as [|e l Hne _ IH]; [done|].
  by rewrite filter_cons_False.
Qed.

(** Within one priority, [add] places the new entry last. *)
Lemma add_tier x p q pl :
  StronglySorted by_priority pl ->
  tier q (add x p pl)
  = tier q pl ++ (if decide (p = q) then [(p, x)] else []).
Proof.
  unfold tier.
  induction pl as [|[r y] rest IH]; cbn [add]; intros Hs.
  - rewrite filter_cons, filter_nil. cbn [fst].
    by destruct (decide (p = q)).
  - apply StronglySorted_inv in Hs as [Hrest Hall].
    destruct (Z.ltb_spec r p) as [Hlt|Hge].
    + rewrite (filter_cons _ (p, x)). cbn [fst].
      destruct (decide (p = q)) as [->|Hne]; [|by rewrite app_nil_r].
      assert (filter (fun e : Z * A => fst e = q) ((r, y) :: rest) = [])
        as ->; [|done].
      apply filter_none. constructor; [simpl; lia|].
      eapply Forall_impl; [exact Hall|].
      intros [r' z]; unfold by_priority; simpl; lia.
    + rewrite !(filter_cons _ (r, y)). cbn [fst].
      rewrite (IH Hrest). by destruct (decide (r = q)).
Qed.

Lemma sorted_lookup_le (l : list (Z * A)) i j a b :
  StronglySorted by_priority l ->
  l !! i = Some a -> l !! j = Some b -> (i < j)%nat -> fst b <= fst a.
Proof.
  intros Hs. revert i j.
  induction Hs as [|c l Hs IH Hall]; intros i j Hi Hj Hlt; [done|].
  destruct j as [|j]; [lia|]. simpl in Hj.
  destruct i as [|i]; simpl in Hi.
  - injection Hi as <-.
    rewrite Forall_forall in Hall. apply Hall.
    apply list_elem_of_lookup. eauto.
  - apply (IH i j); [done|done|lia].
Qed.

End PriorityListFacts.

(** ** The resolver *)

Section ResolverFacts.

Import PriorityList ResourceResolver.
Implicit Types (self : ResourceResolver.t) (regs : list (Source * Z)).

Lemma registered_from_sorted self regs :
  StronglySorted by_priority (sources self) ->
  StronglySorted by_priority (sources (registered_from self regs)).
Proof.
  revert self. induction regs as [|[s p] regs IH]; intros self Hs; [done|].
  apply IH. by apply add_sorted.
Qed.

Lemma registered_from_Permutation self regs :
  sources (registered_from self regs) ≡ₚ sources self ++ map entry_of regs.
Proof.
  revert self. induction regs as [|[s p] regs IH]; intros self; simpl.
  - by rewrite app_nil_r.
  - unfold registered_from in *. simpl. rewrite IH. simpl.
    rewrite add_Permutation.
    change (entry_of (s, p)) with (p, s).
    simpl. apply Permutation_middle.
Qed.

Lemma registered_from_tier self regs q :
  StronglySorted by_priority (sources self) ->
  tier q (sources (registered_from self regs))
  = tier q (sources self) ++ tier q (map entry_of regs).
Proof.
  revert self. induction regs as [|[s p] regs IH]; intros self Hs.
  - by rewrite app_nil_r.
  - unfold registered_from in *. simpl.
    rewrite IH by (by apply add_sorted). simpl.
    rewrite add_tier by done.
    change (entry_of (s, p)) with (p, s).
    unfold tier at 4. rewrite filter_cons. cbn [fst].
    rewrite <- app_assoc. by destruct (decide (p = q)).
Qed.

Lemma probe_first (srcs : list Source) resource i s path :
  srcs !! i = Some s ->
  (forall j s', (j < i)%nat -> srcs !! j = Some s' ->
                source_call s' resource = None) ->
  source_call s resource = Some path ->
  probe srcs resource = (take (S i) srcs, Some path).
Proof.
  revert i. induction srcs as [|s0 srcs IH]; intros i Hi Hbefore Hs; [done|].
  destruct i as [|i]; simpl in *.
  - injection Hi as ->. by rewrite Hs.
  - rewrite (Hbefore 0%nat s0) by (done || lia).
    rewrite (IH i); [done|done| |done].
    intros j s' Hj Hs'. apply (Hbefore (S j)); [lia|done].
Qed.

Lemma probe_none (srcs : list Source) resource :
  Forall (fun s => source_call s resource = None) srcs ->
  probe srcs resource = (srcs, None).
Proof.
  induction 1 as [|s srcs Hs _ IH]; simpl; [done|].
  by rewrite Hs, IH.
Qed.

(** When some source finds the resource, one of them is the first to do
    so in iteration order. *)
Lemma first_match_exists (entries : list (Z * Source)) resource :
  Exists (fun e => finds (snd e) resource) entries ->
  exists i p s path,
    entries !! i = Some (p, s)
    /\ (forall j q s', (j < i)%nat -> entries !! j = Some (q, s') ->
                       source_call s' resource = None)
    /\ source_call s resource = Some path.
Proof.
  induction entries as [|[p0 s0] entries IH]; intros Hex.
  - by apply Exists_nil in Hex.
  - destruct (source_call s0 resource) as [path|] eqn:Hs0.
    + exists 0%nat, p0, s0, path.
      split; [done|split; [intros; lia|done]].
    + apply Exists_cons in Hex as [[x Hx]|Hex];
        [simpl in Hx; congruence|].
      destruct (IH Hex) as (i & p & s & path & Hi & Hbefore & Hs).
      exists (S i), p, s, path. split; [done|split; [|done]].
      intros [|j] q s' Hj Hlook; simpl in Hlook.
      * by injection Hlook as <- <-.
      * apply (Hbefore j q); [lia|done].
Qed.

Lemma get_entries_first self resource strict i p s path :
  sources self !! i = Some (p, s) ->
  (forall j q s', (j < i)%nat -> sources self !! j = Some (q, s') ->
                  source_call s' resource = None) ->
  source_call s resource = Some path ->
  get self resource strict = (take (S i) (iter (sources self)), Ok (Some path)).
Proof.
  intros Hi Hbefore Hs. unfold get, iter.
  rewrite (probe_first _ resource i s path);
    [done|by rewrite list_lookup_fmap, Hi| |done].
  intros j s' Hj Hlook. rewrite list_lookup_fmap in Hlook.
  destruct (sources self !! j) as [[q s'']|] eqn:Hq; [|done].
  simpl in Hlook. injection Hlook as ->. by apply (Hbefore j q).
Qed.

(** The first source to find the resource has the highest priority of
    all that find it. *)
Lemma first_match_highest regs resource i p s :
  sources (registered regs) !! i = Some (p, s) ->
  (forall j q s', (j < i)%nat ->
     sources (registered regs) !! j = Some (q, s') ->
     source_call s' resource = None) ->
  forall s' p', (s', p') ∈ regs -> finds s' resource -> p' <= p.
Proof.
  intros Hi Hbefore s' p' Hin [path' Hfinds].
  assert ((p', s') ∈ sources (registered regs)) as Hentry.
  { unfold registered. rewrite registered_from_Permutation. simpl.
    apply list_elem_of_fmap. by exists (s', p'). }
  apply list_elem_of_lookup in Hentry as [j Hj].
  destruct (Nat.lt_trichotomy j i) as [Hlt|[->|Hgt]].
  - rewrite (Hbefore j p' s') in Hfinds; done.
  - rewrite Hi in Hj. injection Hj as -> _. lia.
  - apply (sorted_lookup_le (sources (registered regs)) i j (p, s) (p', s'));
      [|done|done|done].
    apply registered_from_sorted. constructor.
Qed.

End ResolverFacts.

(** C1.  The sources are iterated from highest to lowest priority, in
    registration order within one priority.  [get] calls them in that
    order up to the first one that returns a path, returns that path and
    calls no further source; the source that wins has the highest priority
    among those that find the resource.  In particular a source that finds
    the resource wins over any number of lower-priority sources that find
    it too. *)
Theorem get_first_match_highest_priority
    (regs : list (ResourceResolver.Source * Z)) (resource : Resource)
    (strict : bool) :
  let self := ResourceResolver.registered regs in
  let entries := ResourceResolver.sources self in
  (StronglySorted PriorityList.by_priority entries
   /\ entries ≡ₚ map ResourceResolver.entry_of regs
   /\ forall p, PriorityList.tier p entries
               = PriorityList.tier p (map ResourceResolver.entry_of regs))
  /\ (forall i p s path,
        entries !! i = Some (p, s) ->
        (forall j q s', (j < i)%nat -> entries !! j = Some (q, s') ->
           ResourceResolver.source_call s' resource = None) ->
        ResourceResolver.source_call s resource = Some path ->
        ResourceResolver.get self resource strict
        = (take (S i) (PriorityList.iter entries), Ok (Some path))
        /\ forall s' p', (s', p') ∈ regs ->
             ResourceResolver.finds s' resource -> p' <= p)
  /\ (forall s1 p1 path1,
        (s1, p1) ∈ regs ->
        ResourceResolver.source_call s1 resource = Some path1 ->
        (forall s2 p2, (s2, p2) ∈ regs ->
           ResourceResolver.finds s2 resource ->
           (s2, p2) <> (s1, p1) -> p2 < p1) ->
        snd (ResourceResolver.get self resource strict) = Ok (Some path1)).
Proof.
  intros self entries. split; [|split].
  - split; [|split].
    + apply registered_from_sorted. constructor.
    + subst entries self. unfold ResourceResolver.registered.
      by rewrite registered_from_Permutation.
    + intros p. subst entries self. unfold ResourceResolver.registered.
      rewrite registered_from_tier by constructor. done.
  - intros i p s path Hi Hbefore Hs. split.
    + by apply (get_entries_first self resource strict i p s path).
    + by apply (first_match_highest regs resource i p s).
  - intros s1 p1 path1 Hin Hs1 Hlower.
    destruct (first_match_exists entries resource)
      as (i & p & s & path & Hi & Hbefore & Hs).
    { apply Exists_exists. exists (p1, s1). split.
      - subst entries self. unfold ResourceResolver.registered.
        rewrite registered_from_Permutation. simpl.
        apply list_elem_of_fmap. by exists (s1, p1).
      - by exists path1. }
    rewrite (get_entries_first self resource strict i p s path) by done.
    simpl.
    assert ((s, p) ∈ regs) as Hreg.
    { assert ((p, s) ∈ entries) as He
        by (apply list_elem_of_lookup; eauto).
      subst entries self. unfold ResourceResolver.registered in He.
      rewrite registered_from_Permutation in He. simpl in He.
      apply list_elem_of_fmap in He as [[s' p'] [Heq Hin']].
      by injection Heq as -> ->. }
    assert (p1 <= p) as Hle.
    { apply (first_match_highest regs resource i p s Hi Hbefore s1);
        [done|by exists path1]. }
    destruct (decide (path = path1)) as [->|Hne]; [done|].
    assert (p < p1); [|lia].
    apply (Hlower s); [done|by exists path|].
    intros Heq. injection Heq as -> ->. congruence.
Qed.

(** The iteration order of the spec's example: registering [A] at 10,
    [B] at 20 and [C] at 10 yields [B], [A], [C]. *)
Example iter_sample :
  PriorityList.iter (ResourceResolver.sources
                       (ResourceResolver.registered Sample.regs))
  = [Sample.B; Sample.A; Sample.C].
Proof. reflexivity. Qed.

Lemma get_first_match_highest_priority_witness :
  ResourceResolver.get (ResourceResolver.registered Sample.regs)
    Sample.jar true
  = ([Sample.B], Ok (Some "/srv/b"%string))
  /\ snd (ResourceResolver.get (ResourceResolver.registered Sample.regs)
            Sample.jar true)
     = Ok (Some "/srv/b"%string).
Proof.
  pose proof (get_first_match_highest_priority Sample.regs Sample.jar true)
    as H.
  cbv zeta in H. destruct H as (_ & Hfirst & Hwins). split.
  - destruct (Hfirst 0%nat 20 Sample.B "/srv/b"%string) as [Hget _].
    + reflexivity.
    + intros j q s' Hj. lia.
    + reflexivity.
    + exact Hget.
  - apply (Hwins Sample.B 20).
    + unfold Sample.regs. apply list_elem_of_In. simpl. tauto.
    + reflexivity.
    + intros s2 p2 Hin [path Hfinds] Hne.
      unfold Sample.regs in Hin. apply list_elem_of_In in Hin. simpl in Hin.
      destruct Hin as [Heq|[Heq|[Heq|[]]]]; injection Heq as <- <-.
      * lia.
      * by destruct Hne.
      * discriminate Hfinds.
Defined.

(** C2.  When no registered source finds the resource, [get] calls every
    source, then raises [ResourceError] if [strict] is set and returns
    [None], without raising, if it is not. *)
Theorem get_not_found (regs : list (ResourceResolver.Source * Z))
    (resource : Resource) :
  Forall (fun reg => ResourceResolver.source_call (fst reg) resource = None)
    regs ->
  let self := ResourceResolver.registered regs in
  ResourceResolver.get self resource true
  = (PriorityList.iter (ResourceResolver.sources self), Raise ResourceError)
  /\ ResourceResolver.get self resource false
     = (PriorityList.iter (ResourceResolver.sources self), Ok None).
Proof.
  intros Hnone self.
  assert (ResourceResolver.probe
            (PriorityList.iter (ResourceResolver.sources self)) resource
          = (PriorityList.iter (ResourceResolver.sources self), None))
    as Hprobe.
  { apply probe_none. unfold PriorityList.iter. apply Forall_fmap.
    subst self. unfold ResourceResolver.registered.
    rewrite registered_from_Permutation. simpl. apply Forall_fmap.
    eapply Forall_impl; [exact Hnone|]. by intros [s p]. }
  unfold ResourceResolver.get. by rewrite Hprobe.
Qed.

Lemma get_not_found_witness :
  snd (ResourceResolver.get
         (ResourceResolver.registered [(Sample.C, 10); (Sample.C, 30)])
         Sample.jar true) = Raise ResourceError
  /\ snd (ResourceResolver.get
            (ResourceResolver.registered [(Sample.C, 10); (Sample.C, 30)])
            Sample.jar false) = Ok None.
Proof.
  destruct (get_not_found [(Sample.C, 10); (Sample.C, 30)] Sample.jar)
    as [Hstrict Hlax].
  - repeat constructor.
  - split.
    + exact (f_equal snd Hstrict).
    + exact (f_equal snd Hlax).
Defined.

(** ** Version tuples *)

Section VersionFacts.

Import Types.
Implicit Types (v w : list atom) (x y : atom).

Lemma string_compare_refl (s : string) : String.compare s s = Eq.
Proof.
  pose proof (String.compare_antisym s s) as H.
  by destruct (String.compare s s).
Qed.

Lemma atom_eqb_eq x y : atom_eqb x y = true <-> x = y.
Proof.
  unfold atom_eqb.
  destruct x as [m|s], y as [n|t]; simpl; try (split; discriminate).
  - destruct (N.compare_spec m n); split;
      (congruence || (intros [= ->]; lia) || discriminate).
  - destruct (String.compare s t) eqn:Hc; split; try discriminate.
    + intros _. f_equal. by apply String.compare_eq_iff.
    + done.
    + intros [= ->]. by rewrite string_compare_refl in Hc.
    + intros [= ->]. by rewrite string_compare_refl in Hc.
Qed.

(** Python's [>] on tuples is the negation of its [<=], and [<] that of
    [>=]. *)
Lemma tuple_gt_not_le v w : tuple_gt v w = negb (tuple_le v w).
Proof.
  unfold tuple_gt, tuple_le. revert w.
  induction v as [|x v IH]; intros [|y w]; simpl; try done.
  destruct (atom_eqb x y); [apply IH|].
  unfold atom_leb. by rewrite negb_involutive.
Qed.

Lemma tuple_lt_not_ge v w : tuple_lt v w = negb (tuple_ge v w).
Proof.
  unfold tuple_lt, tuple_ge. revert w.
  induction v as [|x v IH]; intros [|y w]; simpl; try done.
  - destruct (atom_eqb x y); [apply IH|].
    unfold atom_geb. by rewrite negb_involutive.
Qed.

(** The scan of [loose_version_matching] stays in range and tells whether
    the two tuples agree at every index it visits. *)
Lemma loose_version_scan_spec v w (indices : list nat) :
  Forall (fun i => (i < length v)%nat /\ (i < length w)%nat) indices ->
  exists b, loose_version_scan v w indices = Ok b
            /\ (b = true <-> Forall (fun i => v !! i = w !! i) indices).
Proof.
  induction 1 as [|i indices [Hv Hw] _ (b & Hscan & Hb)]; simpl.
  - exists true. split; [done|]. split; [constructor|done].
  - unfold items_differ.
    destruct (lookup_lt_is_Some_2 v i Hv) as [x Hx].
    destruct (lookup_lt_is_Some_2 w i Hw) as [y Hy].
    rewrite Hx, Hy.
    destruct (atom_eqb x y) eqn:Heq; simpl.
    + apply atom_eqb_eq in Heq as ->.
      exists b. split; [done|]. rewrite Hb. split.
      * intros Hall. constructor; [congruence|done].
      * by intros [_ Hall]%Forall_cons_1.
    + exists false. split; [done|]. split; [done|].
      intros [Hi _]%Forall_cons_1. rewrite Hx, Hy in Hi.
      injection Hi as ->.
      by rewrite (proj2 (atom_eqb_eq y y)) in Heq.
Qed.

(** Agreement on the first [length v] indices is the prefix relation. *)
Lemma agree_prefix v w :
  (length v <= length w)%nat ->
  Forall (fun i => v !! i = w !! i) (seq 0 (length v)) <-> v `prefix_of` w.
Proof.
  intros Hlen. split.
  - intros Hall. exists (drop (length v) w).
    rewrite <- (take_drop (length v) w) at 1. f_equal.
    apply list_eq. intros i.
    destruct (decide (i < length v)%nat) as [Hi|Hi].
    + rewrite lookup_take_lt by done. symmetry.
      rewrite Forall_forall in Hall. apply Hall.
      apply elem_of_seq. lia.
    + rewrite lookup_take_ge by lia. symmetry.
      apply lookup_ge_None. lia.
  - intros [k ->]. apply Forall_forall. intros i Hi.
    apply elem_of_seq in Hi. by rewrite lookup_app_l by lia.
Qed.

End VersionFacts.

(** C4.  With [n] the length of the requested version tuple, the loose
    match fails when the metadata's tuple has fewer than [n] segments and
    otherwise accepts exactly when the first [n] segments are pairwise
    equal: it accepts exactly when the requested tuple is a prefix of the
    metadata's.  So "1.2" loosely matches "1.2.7", and neither does
    "1.2.7" match "1.2" nor "1.2" match "1.3". *)
Theorem loose_version_matching_prefix (config_version : string)
    (apk_version : option string) :
  let requested := Types.version_tuple (Some config_version) in
  let candidate := Types.version_tuple apk_version in
  (exists b,
     loose_version_matching config_version apk_version = Ok b
     /\ (b = true <->
         (length requested <= length candidate)%nat
         /\ forall i, (i < length requested)%nat ->
                      candidate !! i = requested !! i)
     /\ (b = true <-> requested `prefix_of` candidate))
  /\ loose_version_matching "1.2" (Some "1.2.7"%string) = Ok true
  /\ loose_version_matching "1.2.7" (Some "1.2"%string) = Ok false
  /\ loose_version_matching "1.2" (Some "1.3"%string) = Ok false.
Proof.
  intros requested candidate. split; [|by vm_compute].
  unfold loose_version_matching. fold requested candidate.
  destruct (Nat.ltb_spec (length candidate) (length requested)) as [Hlt|Hge].
  - exists false. split; [done|]. split; (split; [done|]).
    + intros [Hle _]. lia.
    + intros Hpre%prefix_length. lia.
  - destruct (loose_version_scan_spec requested candidate
                (seq 0 (length requested))) as (b & Hscan & Hb).
    { apply Forall_forall. intros i Hi%elem_of_seq. lia. }
    exists b. split; [done|]. rewrite Hb. split.
    + rewrite Forall_forall. split.
      * intros Hall. split; [done|]. intros i Hi. symmetry.
        apply Hall, elem_of_seq. lia.
      * intros [_ Hall] i Hi%elem_of_seq. symmetry. apply Hall. lia.
    + by apply agree_prefix.
Qed.

(** C5.  The range match accepts exactly when the metadata version is not
    null or empty, is at least [min_version] when that bound is given and
    at most [max_version] when that one is, the versions compared as
    version tuples; a bound is given when it is neither [None] nor the
    empty string.  A null or empty metadata version fails whatever the
    bounds, also with none.  With the bounds "2.0" and "3.0", "2.5.1"
    matches and "3.1" and "1.9" do not. *)
Theorem range_version_matching_bounds
    (apk_version min_version max_version : option string) :
  (range_version_matching apk_version min_version max_version = true <->
     Py.truthy_str apk_version = true
     /\ (Py.truthy_str min_version = true ->
         Types.tuple_ge (Types.version_tuple apk_version)
           (Types.version_tuple min_version) = true)
     /\ (Py.truthy_str max_version = true ->
         Types.tuple_le (Types.version_tuple apk_version)
           (Types.version_tuple max_version) = true))
  /\ range_version_matching None min_version max_version = false
  /\ range_version_matching (Some EmptyString) min_version max_version
     = false
  /\ range_version_matching (Some "2.5.1"%string) (Some "2.0"%string)
       (Some "3.0"%string) = true
  /\ range_version_matching (Some "3.1"%string) (Some "2.0"%string)
       (Some "3.0"%string) = false
  /\ range_version_matching (Some "1.9"%string) (Some "2.0"%string)
       (Some "3.0"%string) = false.
Proof.
  split; [|by vm_compute].
  unfold range_version_matching.
  destruct apk_version as [apk|]; [|by split; [|intros [? _]]].
  cbn [default].
  destruct (Py.truthy_str (Some apk)) eqn:Hapk; cbn [negb];
    [|by split; [|intros [? _]]].
  rewrite tuple_gt_not_le, tuple_lt_not_ge.
  destruct (Py.truthy_str max_version), (Py.truthy_str min_version);
    cbn [andb];
    destruct (Types.tuple_le _ _), (Types.tuple_ge _ _); cbn [negb];
    (split;
     [intros Hr; try discriminate Hr; by repeat split
     |intros (_ & Hmin & Hmax); try done;
      first [by apply Hmin | by apply Hmax]]).
Qed.

(** ** The path pre-filter of package resources *)

Section LowerFacts.

(** Which code points [str.lower] sends to a given letter of ".apk". *)
Lemma lower_ascii_dot c :
  Ascii.eqb (Str.lower_ascii c) "." = Ascii.eqb c ".".
Proof. by destruct c as [[] [] [] [] [] [] [] []]. Qed.

Lemma lower_ascii_a c :
  Ascii.eqb (Str.lower_ascii c) "a" = Ascii.eqb c "a" || Ascii.eqb c "A".
Proof. by destruct c as [[] [] [] [] [] [] [] []]. Qed.

Lemma lower_ascii_p c :
  Ascii.eqb (Str.lower_ascii c) "p" = Ascii.eqb c "p" || Ascii.eqb c "P".
Proof. by destruct c as [[] [] [] [] [] [] [] []]. Qed.

Lemma lower_ascii_k c :
  Ascii.eqb (Str.lower_ascii c) "k" = Ascii.eqb c "k" || Ascii.eqb c "K".
Proof. by destruct c as [[] [] [] [] [] [] [] []]. Qed.

Lemma eqb_either c x y :
  Ascii.eqb c x || Ascii.eqb c y = true <-> c = x \/ c = y.
Proof. rewrite orb_true_iff, !Ascii.eqb_eq. done. Qed.

(** The strings that [str.lower] sends to ".apk". *)
Lemma lower_is_apk (ext : string) :
  String.eqb (Str.lower ext) ".apk" = true <->
  exists a p k,
    ext = String "." (String a (String p (String k EmptyString)))
    /\ (a = "a" \/ a = "A")%char
    /\ (p = "p" \/ p = "P")%char
    /\ (k = "k" \/ k = "K")%char.
Proof.
  split.
  - destruct ext as [|d [|a [|p [|k [|? ?]]]]]; simpl;
      rewrite ?andb_false_r; try discriminate.
    all: try (destruct (Ascii.eqb _ _); discriminate).
    all: try (repeat (destruct (Ascii.eqb _ _); try discriminate); fail).
    rewrite lower_ascii_dot, lower_ascii_a, lower_ascii_p, lower_ascii_k.
    destruct (Ascii.eqb d ".") eqn:Hd; [|discriminate].
    destruct (Ascii.eqb a "a" || Ascii.eqb a "A") eqn:Ha; [|discriminate].
    destruct (Ascii.eqb p "p" || Ascii.eqb p "P") eqn:Hp; [|discriminate].
    destruct (Ascii.eqb k "k" || Ascii.eqb k "K") eqn:Hk; [|discriminate].
    intros _. apply Ascii.eqb_eq in Hd as ->.
    exists a, p, k. by rewrite <- !eqb_either.
  - intros (a & p & k & -> & Ha & Hp & Hk).
    by destruct Ha as [->| ->], Hp as [->| ->], Hk as [->| ->].
Qed.

End LowerFacts.

(** C10.  [match_path] of a package resource accepts a path exactly when
    its extension is ".apk" in any mix of upper and lower case: "FOO.APK"
    and "app.Apk" pass as "app.apk" does, and "app.apk.bak" does not. *)
Theorem ApkFile_match_path_any_case (self : ApkFile) (path : string) :
  (ApkFile_match_path self path = true <->
   exists a p k,
     snd (OsPath.splitext path)
     = String "." (String a (String p (String k EmptyString)))
     /\ (a = "a" \/ a = "A")%char
     /\ (p = "p" \/ p = "P")%char
     /\ (k = "k" \/ k = "K")%char)
  /\ ApkFile_match_path self "FOO.APK" = true
  /\ ApkFile_match_path self "app.Apk" = true
  /\ ApkFile_match_path self "/srv/apks/app.apk" = true
  /\ ApkFile_match_path self "app.apk.bak" = false
  /\ ApkFile_match_path self "apk" = false.
Proof.
  split; [|by vm_compute].
  unfold ApkFile_match_path. apply lower_is_apk.
Qed.

(** ** The metadata cache *)

Section CacheFacts.

Import ApkInfoCache.
Implicit Types (self : ApkInfoCache.t) (d : Disk) (info : ApkInfo.t).

Lemma from_pod_to_pod info : ApkInfo.from_pod (ApkInfo.to_pod info) = info.
Proof. by destruct info. Qed.

Lemma update_cache_path self d : path (_update_cache self d) = path self.
Proof.
  unfold _update_cache. destruct (pods d !! path self); [|done].
  by case_bool_decide.
Qed.

(** A second re-synchronization in a row changes nothing. *)
Lemma update_cache_idem self d :
  _update_cache (_update_cache self d) d = _update_cache self d.
Proof.
  unfold _update_cache at 2 3.
  destruct (pods d !! path self) as [f|] eqn:Hf.
  - case_bool_decide as Hstat; unfold _update_cache; simpl; rewrite Hf.
    + by rewrite bool_decide_eq_true_2.
    + by rewrite bool_decide_eq_true_2.
  - unfold _update_cache. by rewrite Hf.
Qed.

Lemma store_overwrite self info apk_id d :
  store self info apk_id true d
  = (Ok tt, fst (stored self info apk_id d), snd (stored self info apk_id d)).
Proof.
  unfold store, stored. rewrite andb_false_r. cbn [fst snd negb].
  rewrite update_cache_path. unfold os_stat, write_pod. cbn [pods].
  by rewrite lookup_insert_eq.
Qed.

Lemma store_fresh self info apk_id overwrite d :
  cache (_update_cache self d) !! apk_id = None ->
  store self info apk_id overwrite d
  = (Ok tt, fst (stored self info apk_id d), snd (stored self info apk_id d)).
Proof.
  intros Hfresh. unfold store, stored. rewrite Hfresh.
  rewrite bool_decide_eq_false_2 by (by intros [? ?]). cbn [andb fst snd].
  rewrite update_cache_path. unfold os_stat, write_pod. cbn [pods].
  by rewrite lookup_insert_eq.
Qed.

Lemma store_duplicate self info apk_id d :
  is_Some (cache (_update_cache self d) !! apk_id) ->
  store self info apk_id false d = (Raise ValueError, _update_cache self d, d).
Proof.
  intros Hdup. unfold store. by rewrite bool_decide_eq_true_2.
Qed.

(** After a successful [store] the instance is in step with the file. *)
Lemma update_cache_stored self info apk_id d :
  _update_cache (fst (stored self info apk_id d))
    (snd (stored self info apk_id d))
  = fst (stored self info apk_id d).
Proof.
  unfold stored, _update_cache, write_pod. cbn [fst snd path pods].
  rewrite lookup_insert_eq. cbn [pf_stat last_modified].
  by rewrite bool_decide_eq_true_2.
Qed.

(** A new instance over the file that [store] wrote holds the same table. *)
Lemma init_stored self info apk_id d :
  init (path self) (snd (stored self info apk_id d))
  = fst (stored self info apk_id d).
Proof.
  unfold init, stored, _update_cache, write_pod. cbn [fst snd path pods].
  rewrite lookup_insert_eq. cbn [pf_stat pf_table last_modified].
  by rewrite bool_decide_eq_false_2.
Qed.

Lemma get_info_stored self info apk_id d :
  get_info (fst (stored self info apk_id d)) apk_id
    (snd (stored self info apk_id d))
  = (Some info, fst (stored self info apk_id d)).
Proof.
  unfold get_info. rewrite update_cache_stored.
  unfold stored. cbn [fst cache]. rewrite lookup_insert_eq. simpl.
  by rewrite from_pod_to_pod.
Qed.

End CacheFacts.

(** C9.  A record stored under a key is read back equal, from the same
    instance and from a new instance over the file the store wrote.
    Storing again under the key with [overwrite] set replaces the record,
    and the next read gives the new one.  Storing under a key the cache
    holds with [overwrite] cleared raises [ValueError] and leaves the
    instance and the file as they are. *)
Theorem cache_round_trip (self self1 self2 : ApkInfoCache.t)
    (d d1 d2 : Disk) (info info2 : ApkInfo.t) (key : string)
    (r1 r2 : result unit) :
  ApkInfoCache.store self info key true d = (r1, self1, d1) ->
  ApkInfoCache.store self1 info2 key true d1 = (r2, self2, d2) ->
  (r1 = Ok tt
   /\ ApkInfoCache.get_info self1 key d1 = (Some info, self1)
   /\ ApkInfoCache.get_info
        (ApkInfoCache.init (ApkInfoCache.path self) d1) key d1
      = (Some info, self1))
  /\ (r2 = Ok tt
      /\ ApkInfoCache.get_info self2 key d2 = (Some info2, self2)
      /\ ApkInfoCache.get_info
           (ApkInfoCache.init (ApkInfoCache.path self) d2) key d2
         = (Some info2, self2))
  /\ ApkInfoCache.store self1 info2 key false d1
     = (Raise ValueError, self1, d1)
  /\ (forall (self0 : ApkInfoCache.t) (d0 : Disk),
        is_Some (ApkInfoCache.cache (ApkInfoCache._update_cache self0 d0)
                 !! key) ->
        fst (fst (ApkInfoCache.store self0 info2 key false d0))
        = Raise ValueError).
Proof.
  intros H1 H2.
  rewrite store_overwrite in H1.
  remember (ApkInfoCache.stored self info key d) as st1 eqn:Hst1.
  injection H1 as <- <- <-.
  rewrite store_overwrite in H2.
  remember (ApkInfoCache.stored (fst st1) info2 key (snd st1)) as st2 eqn:Hst2.
  injection H2 as <- <- <-.
  assert (ApkInfoCache.path (fst st1) = ApkInfoCache.path self) as Hpath
    by (by subst st1).
  split; [|split; [|split]].
  - split; [done|]. subst st1. split.
    + apply get_info_stored.
    + rewrite init_stored. apply get_info_stored.
  - split; [done|]. rewrite <- Hpath. subst st2. split.
    + apply get_info_stored.
    + rewrite init_stored. apply get_info_stored.
  - rewrite store_duplicate; subst st1; rewrite update_cache_stored; [done|].
    unfold ApkInfoCache.stored. cbn [fst ApkInfoCache.cache].
    by rewrite lookup_insert_eq.
  - intros self0 d0 Hdup. by rewrite store_duplicate.
Qed.

Lemma cache_round_trip_witness :
  exists self1 d1,
    ApkInfoCache.store (ApkInfoCache.init Sample.cache_file Sample.disk0)
      Sample.app_info "/apks/app.apk-1541030400.0" true Sample.disk0
    = (Ok tt, self1, d1)
    /\ ApkInfoCache.get_info self1 "/apks/app.apk-1541030400.0" d1
       = (Some Sample.app_info, self1)
    /\ ApkInfoCache.store self1 Sample.uiauto_info
         "/apks/app.apk-1541030400.0" false d1
       = (Raise ValueError, self1, d1).
Proof.
  destruct (ApkInfoCache.store
              (ApkInfoCache.init Sample.cache_file Sample.disk0)
              Sample.app_info "/apks/app.apk-1541030400.0" true Sample.disk0)
    as [[r1 self1] d1] eqn:H1.
  destruct (ApkInfoCache.store self1 Sample.uiauto_info
              "/apks/app.apk-1541030400.0" true d1)
    as [[r2 self2] d2] eqn:H2.
  destruct (cache_round_trip _ _ _ _ _ _ _ _ _ _ _ H1 H2)
    as ((-> & Hget & _) & _ & Hdup & _).
  exists self1, d1. by rewrite Hget, Hdup.
Defined.

(** ** The cache accessor *)

Section AccessorFacts.

Implicit Types (w : World) (path : string) (f : HostFile)
  (c : ApkInfoCache.t).

Lemma stored_update_cache c (info : ApkInfo.t) (key : string) (d : Disk) :
  ApkInfoCache.stored (ApkInfoCache._update_cache c d) info key d
  = ApkInfoCache.stored c info key d.
Proof.
  unfold ApkInfoCache.stored.
  by rewrite update_cache_idem, update_cache_path.
Qed.

Lemma get_cacheable_missing w path :
  path <> EmptyString ->
  apks (disk w) !! path = None ->
  get_cacheable_apk_info (Some path) w = (Raise (FileNotFoundError path), w).
Proof.
  intros Hne Hnone. unfold get_cacheable_apk_info.
  rewrite (proj2 (String.eqb_neq _ _) Hne). by rewrite Hnone.
Qed.

Lemma get_cacheable_hit w path f c (pod : Pod.t) :
  path <> EmptyString ->
  apks (disk w) !! path = Some f ->
  apk_info_cache w = Some c ->
  ApkInfoCache.cache (ApkInfoCache._update_cache c (disk w))
    !! apk_id_of path (st_mtime f) = Some pod ->
  get_cacheable_apk_info (Some path) w
  = (Ok (Some (ApkInfo.from_pod pod)),
     {| disk := disk w;
        apk_info_cache := Some (ApkInfoCache._update_cache c (disk w)) |}).
Proof.
  intros Hne Hf Hc Hpod. unfold get_cacheable_apk_info.
  rewrite (proj2 (String.eqb_neq _ _) Hne), Hf, Hc.
  unfold ApkInfoCache.get_info. by rewrite Hpod.
Qed.

Lemma get_cacheable_miss w path f c :
  path <> EmptyString ->
  apks (disk w) !! path = Some f ->
  apk_info_cache w = Some c ->
  ApkInfoCache.cache (ApkInfoCache._update_cache c (disk w))
    !! apk_id_of path (st_mtime f) = None ->
  get_cacheable_apk_info (Some path) w
  = (Ok (Some (extracted f)),
     let st := ApkInfoCache.stored c (extracted f)
                 (apk_id_of path (st_mtime f)) (disk w) in
     {| disk := snd st; apk_info_cache := Some (fst st) |}).
Proof.
  intros Hne Hf Hc Hpod. unfold get_cacheable_apk_info.
  rewrite (proj2 (String.eqb_neq _ _) Hne), Hf, Hc.
  unfold ApkInfoCache.get_info. rewrite Hpod. cbn [fmap option_fmap option_map].
  rewrite store_overwrite. by rewrite stored_update_cache.
Qed.

(** Once the accessor has answered for a path, asking again gives the
    same answer and leaves the state as it is. *)
Lemma get_cacheable_stable w path (info : option ApkInfo.t) w' :
  get_cacheable_apk_info (Some path) w = (Ok info, w') ->
  get_cacheable_apk_info (Some path) w' = (Ok info, w').
Proof.
  destruct (String.eqb_spec path EmptyString) as [->|Hne].
  { simpl. by intros [= <- <-]. }
  destruct (apks (disk w) !! path) as [f|] eqn:Hf;
    [|by rewrite get_cacheable_missing].
  destruct (apk_info_cache w) as [c|] eqn:Hc; cycle 1.
  { unfold get_cacheable_apk_info.
    by rewrite (proj2 (String.eqb_neq _ _) Hne), Hf, Hc. }
  destruct (ApkInfoCache.cache (ApkInfoCache._update_cache c (disk w))
              !! apk_id_of path (st_mtime f)) as [pod|] eqn:Hpod.
  - rewrite (get_cacheable_hit w path f c pod) by done.
    intros [= <- <-].
    rewrite (get_cacheable_hit _ path f
               (ApkInfoCache._update_cache c (disk w)) pod); try done.
    + cbn [disk]. by rewrite update_cache_idem.
    + cbn [disk]. by rewrite update_cache_idem.
  - rewrite (get_cacheable_miss w path f c) by done.
    intros [= <- <-]. cbv zeta.
    rewrite (get_cacheable_hit _ path f
               (fst (ApkInfoCache.stored c (extracted f)
                       (apk_id_of path (st_mtime f)) (disk w)))
               (ApkInfo.to_pod (extracted f))); try done.
    + cbn [disk]. by rewrite update_cache_stored, from_pod_to_pod.
    + cbn [disk]. rewrite update_cache_stored.
      unfold ApkInfoCache.stored. cbn [fst ApkInfoCache.cache].
      by rewrite lookup_insert_eq.
Qed.

End AccessorFacts.

(** C7, as the code has it.  [get_cacheable_apk_info] returns [None] when
    the path is [None] or empty.  For any other path it takes the
    modification time with [os.stat], which raises when there is no file
    at the path.  With the file there, it builds the key from the path
    and the modification time and re-synchronizes the cache: on a hit it
    returns the cached record; on a miss it returns the metadata extracted
    from the file, after which the cache holds that metadata under the
    key, in memory and in its file, and the same call hits. *)
Theorem get_cacheable_apk_info_cases (w : World) :
  get_cacheable_apk_info None w = (Ok None, w)
  /\ get_cacheable_apk_info (Some EmptyString) w = (Ok None, w)
  /\ forall path : string, path <> EmptyString ->
     (apks (disk w) !! path = None ->
      get_cacheable_apk_info (Some path) w
      = (Raise (FileNotFoundError path), w))
     /\ forall (f : HostFile) (c : ApkInfoCache.t),
          apks (disk w) !! path = Some f ->
          apk_info_cache w = Some c ->
          let key := apk_id_of path (st_mtime f) in
          let c1 := ApkInfoCache._update_cache c (disk w) in
          (forall pod : Pod.t,
             ApkInfoCache.cache c1 !! key = Some pod ->
             get_cacheable_apk_info (Some path) w
             = (Ok (Some (ApkInfo.from_pod pod)),
                {| disk := disk w; apk_info_cache := Some c1 |}))
          /\ (ApkInfoCache.cache c1 !! key = None ->
              exists (w' : World) (c' : ApkInfoCache.t),
                get_cacheable_apk_info (Some path) w
                = (Ok (Some (extracted f)), w')
                /\ apk_info_cache w' = Some c'
                /\ ApkInfoCache.cache c' !! key
                   = Some (ApkInfo.to_pod (extracted f))
                /\ pf_table <$> pods (disk w') !! ApkInfoCache.path c'
                   = Some (ApkInfoCache.cache c')
                /\ get_cacheable_apk_info (Some path) w'
                   = (Ok (Some (extracted f)), w')).
Proof.
  split; [done|]. split; [done|]. intros path Hne. split.
  - by apply get_cacheable_missing.
  - intros f c Hf Hc key c1. split.
    + intros pod Hpod. by apply (get_cacheable_hit w path f c pod).
    + intros Hmiss.
      pose proof (get_cacheable_miss w path f c Hne Hf Hc Hmiss) as Hget.
      cbv zeta in Hget.
      eexists _, _. split; [exact Hget|]. split; [done|]. split; [|split].
      * unfold ApkInfoCache.stored. cbn [fst ApkInfoCache.cache].
        by rewrite lookup_insert_eq.
      * unfold ApkInfoCache.stored, write_pod.
        cbn [fst snd disk pods ApkInfoCache.path ApkInfoCache.cache].
        by rewrite lookup_insert_eq.
      * by apply get_cacheable_stable in Hget.
Qed.

(** The accessor on a path without a file: it raises, it does not return
    [None]. *)
Lemma get_cacheable_apk_info_missing_file :
  apks (disk Sample.world0) !! "/apks/missing.apk"%string = None
  /\ fst (get_cacheable_apk_info (Some "/apks/missing.apk"%string)
            Sample.world0)
     = Raise (FileNotFoundError "/apks/missing.apk")
  /\ fst (get_cacheable_apk_info (Some "/apks/missing.apk"%string)
            Sample.world0)
     <> Ok None.
Proof. by vm_compute. Qed.

Lemma get_cacheable_apk_info_cases_witness :
  exists w' : World,
    get_cacheable_apk_info (Some "/apks/app.apk"%string) Sample.world0
    = (Ok (Some Sample.app_info), w')
    /\ get_cacheable_apk_info (Some "/apks/app.apk"%string) w'
       = (Ok (Some Sample.app_info), w').
Proof.
  destruct (get_cacheable_apk_info_cases Sample.world0) as (_ & _ & Hpath).
  destruct (Hpath "/apks/app.apk"%string) as [_ Hfile]; [done|].
  destruct (Hfile {| st_mtime := "1541030400.0";
                     extracted := Sample.app_info |}
              (ApkInfoCache.init Sample.cache_file Sample.disk0))
    as [_ Hmiss]; [by vm_compute|reflexivity|].
  destruct Hmiss as (w' & c' & Hget & _ & _ & _ & Hagain); [by vm_compute|].
  exists w'. by split.
Defined.

(** ** The predicate matchers *)

Section MatcherFacts.

Implicit Types (w : World) (path : string) (info : option ApkInfo.t).

(** The accessor changes the state only when it answers. *)
Lemma get_cacheable_raise_state w path (e : exn) w' :
  get_cacheable_apk_info (Some path) w = (Raise e, w') -> w' = w.
Proof.
  unfold get_cacheable_apk_info.
  destruct (String.eqb path EmptyString); [discriminate|].
  destruct (apks (disk w) !! path) as [f|]; [|by intros [= _ <-]].
  destruct (apk_info_cache w) as [c|]; [|by intros [= _ <-]].
  destruct (ApkInfoCache.get_info c _ (disk w)) as [[i|] c1];
    [discriminate|].
  by rewrite store_overwrite.
Qed.

(** A matcher that asks the accessor and then answers from the metadata
    alone: its answer for the metadata, in the state the accessor leaves,
    and the same again from that state. *)
Lemma bind_accessor w path (k : option ApkInfo.t -> M bool)
    (g : option ApkInfo.t -> result bool) :
  (forall info w0, k info w0 = (g info, w0)) ->
  match get_cacheable_apk_info (Some path) w with
  | (Ok info, w1) =>
      bind (get_cacheable_apk_info (Some path)) k w = (g info, w1)
      /\ bind (get_cacheable_apk_info (Some path)) k w1 = (g info, w1)
  | (Raise e, _) =>
      bind (get_cacheable_apk_info (Some path)) k w = (Raise e, w)
  end.
Proof.
  intros Hk.
  destruct (get_cacheable_apk_info (Some path) w) as [[info|e] w1] eqn:Hget.
  - pose proof (get_cacheable_stable w path info w1 Hget) as Hagain.
    unfold bind. rewrite Hget, Hagain. by rewrite Hk.
  - apply get_cacheable_raise_state in Hget as Hw. subst w1.
    unfold bind. by rewrite Hget.
Qed.

Lemma uiauto_test_matches_run w path (uiauto : bool) :
  match get_cacheable_apk_info (Some path) w with
  | (Ok info, w1) =>
      uiauto_test_matches path uiauto w = (uiauto_answer uiauto info, w1)
      /\ uiauto_test_matches path uiauto w1 = (uiauto_answer uiauto info, w1)
  | (Raise e, _) => uiauto_test_matches path uiauto w = (Raise e, w)
  end.
Proof. apply bind_accessor. by intros [i|] w0. Qed.

Lemma package_name_matches_run w path (package : string) :
  match get_cacheable_apk_info (Some path) w with
  | (Ok info, w1) =>
      package_name_matches path package w = (package_answer package info, w1)
      /\ package_name_matches path package w1
         = (package_answer package info, w1)
  | (Raise e, _) => package_name_matches path package w = (Raise e, w)
  end.
Proof. apply bind_accessor. by intros [i|] w0. Qed.

Lemma apk_version_matches_run w path (version : Types.StrOrList) :
  match get_cacheable_apk_info (Some path) w with
  | (Ok info, w1) =>
      apk_version_matches path version w = (version_answer version info, w1)
      /\ apk_version_matches path version w1
         = (version_answer version info, w1)
  | (Raise e, _) => apk_version_matches path version w = (Raise e, w)
  end.
Proof. apply bind_accessor. by intros info w0. Qed.

Lemma apk_version_matches_range_run w path
    (min_version max_version : option string) :
  match get_cacheable_apk_info (Some path) w with
  | (Ok info, w1) =>
      apk_version_matches_range path min_version max_version w
      = (range_answer min_version max_version info, w1)
      /\ apk_version_matches_range path min_version max_version w1
         = (range_answer min_version max_version info, w1)
  | (Raise e, _) =>
      apk_version_matches_range path min_version max_version w
      = (Raise e, w)
  end.
Proof. apply bind_accessor. by intros info w0. Qed.

Lemma apk_abi_matches_run w path (supported_abi : Types.StrOrList)
    (exact_abi : bool) :
  match get_cacheable_apk_info (Some path) w with
  | (Ok info, w1) =>
      apk_abi_matches path supported_abi exact_abi w
      = (abi_answer supported_abi exact_abi info, w1)
      /\ apk_abi_matches path supported_abi exact_abi w1
         = (abi_answer supported_abi exact_abi info, w1)
  | (Raise e, _) =>
      apk_abi_matches path supported_abi exact_abi w = (Raise e, w)
  end.
Proof.
  apply bind_accessor. intros [i|] w0; [|done]. unfold abi_answer.
  destruct (negb (Py.truthy_list (ApkInfo.native_code i))); [done|].
  destruct exact_abi; [|done].
  by destruct (Types.list_or_string supported_abi).
Qed.

Lemma str_in_elem_of (x : string) (l : list string) :
  Py.str_in x l = true <-> x ∈ l.
Proof.
  unfold Py.str_in. rewrite existsb_exists. split.
  - intros (y & Hin & ->%String.eqb_eq). by apply list_elem_of_In.
  - intros Hin. exists x. split; [by apply list_elem_of_In|].
    apply String.eqb_refl.
Qed.

End MatcherFacts.

(** C6.  For a path whose metadata the accessor gives: when the metadata
    reports no native code the ABI match accepts; with [exact_abi] it
    accepts exactly when the first requested ABI is in the native-code
    list, whatever the other requested ABIs are (and with nothing
    requested the indexing raises); otherwise it accepts exactly when some
    requested ABI is in the list. *)
Theorem apk_abi_matches_cases (path : string)
    (supported_abi : Types.StrOrList) (exact_abi : bool) (w : World)
    (info : ApkInfo.t) :
  fst (get_cacheable_apk_info (Some path) w) = Ok (Some info) ->
  let answer := fst (apk_abi_matches path supported_abi exact_abi w) in
  let requested := Types.list_or_string supported_abi in
  let native_code := default [] (ApkInfo.native_code info) in
  (native_code = [] -> answer = Ok true)
  /\ (native_code <> [] -> exact_abi = true ->
      (answer = Ok true <->
       exists primary, head requested = Some primary /\ primary ∈ native_code)
      /\ (forall primary others, requested = primary :: others ->
            answer = Ok (Py.str_in primary native_code))
      /\ (requested = [] -> answer = Raise IndexError))
  /\ (native_code <> [] -> exact_abi = false ->
      exists b, answer = Ok b
                /\ (b = true <->
                    exists abi, abi ∈ requested /\ abi ∈ native_code)).
Proof.
  intros Hget answer requested native_code.
  pose proof (apk_abi_matches_run w path supported_abi exact_abi) as Hrun.
  destruct (get_cacheable_apk_info (Some path) w) as [[i|e] w1];
    [|discriminate]. simpl in Hget. injection Hget as ->.
  destruct Hrun as [Hrun _].
  assert (answer = abi_answer supported_abi exact_abi (Some info)) as ->
    by (subst answer; by rewrite Hrun).
  unfold abi_answer. fold requested native_code.
  assert (negb (Py.truthy_list (ApkInfo.native_code info))
          = bool_decide (native_code = [])) as ->.
  { subst native_code. by destruct (ApkInfo.native_code info) as [[|]|]. }
  split; [|split].
  - intros Hnone. by rewrite bool_decide_eq_true_2.
  - intros Hsome ->. rewrite bool_decide_eq_false_2 by done.
    split; [|split].
    + destruct requested as [|primary others]; simpl.
      * split; [done|]. by intros (? & ? & _).
      * split.
        -- intros [= Hin]. exists primary. by rewrite <- str_in_elem_of.
        -- intros (? & [= <-] & Hin). f_equal. by apply str_in_elem_of.
    + by intros primary others ->.
    + by intros ->.
  - intros Hsome ->. rewrite bool_decide_eq_false_2 by done.
    eexists. split; [done|]. rewrite existsb_exists. split.
    + intros (abi & Hin & Hnc). exists abi.
      split; [by apply list_elem_of_In|by apply str_in_elem_of].
    + intros (abi & Hin & Hnc). exists abi.
      split; [by apply list_elem_of_In|by apply str_in_elem_of].
Qed.

Lemma apk_abi_matches_cases_witness :
  fst (apk_abi_matches "/apks/app.apk" (Types.StrList ["arm64-v8a"; "x86"])
         true Sample.world0) = Ok true
  /\ fst (apk_abi_matches "/apks/app.apk" (Types.StrList ["x86"; "arm64-v8a"])
            true Sample.world0) = Ok false.
Proof.
  split.
  - destruct (apk_abi_matches_cases "/apks/app.apk"
                (Types.StrList ["arm64-v8a"; "x86"]) true Sample.world0
                Sample.app_info) as (_ & Hexact & _); [by vm_compute|].
    destruct Hexact as (_ & Hfirst & _); [done|done|].
    by rewrite (Hfirst "arm64-v8a"%string ["x86"%string]).
  - destruct (apk_abi_matches_cases "/apks/app.apk"
                (Types.StrList ["x86"; "arm64-v8a"]) true Sample.world0
                Sample.app_info) as (_ & Hexact & _); [by vm_compute|].
    destruct Hexact as (_ & Hfirst & _); [done|done|].
    by rewrite (Hfirst "x86"%string ["arm64-v8a"%string]).
Defined.

(** ** The match of a package resource *)

Section MatchFacts.

Context (re_search : string -> string -> result bool).
Implicit Types (self : ApkFile) (w : World) (path : string)
  (info : option ApkInfo.t).

Lemma bind_step {A B} (c : M A) (k : A -> M B) w (r : result A) w' :
  c w = (r, w') ->
  bind c k w
  = match r with Ok a => k a w' | Raise e => (Raise e, w') end.
Proof. intros Hc. unfold bind. rewrite Hc. by destruct r. Qed.

(** Each step of [ApkFile.match] after the first runs in the state the
    accessor left, answers as the predicate does on its own in the state
    before, and keeps the state. *)
Lemma version_step self path w info w1 :
  get_cacheable_apk_info (Some path) w = (Ok info, w1) ->
  match version self with
  | Some v =>
      if Types.truthy (version self) then apk_version_matches path v
      else ret true
  | None => ret true
  end w1 = (version_predicate self path w, w1).
Proof.
  intros Hget. unfold version_predicate.
  destruct (version self) as [v|]; [|done].
  destruct (Types.truthy (Some v)); [|done].
  pose proof (apk_version_matches_run w path v) as Hrun.
  rewrite Hget in Hrun. destruct Hrun as [-> ->]. done.
Qed.

Lemma version_range_step self path w info w1 :
  get_cacheable_apk_info (Some path) w = (Ok info, w1) ->
  (if Py.truthy_str (max_version self) || Py.truthy_str (min_version self)
   then apk_version_matches_range path (min_version self) (max_version self)
   else ret true) w1
  = (version_range_predicate self path w, w1).
Proof.
  intros Hget. unfold version_range_predicate.
  destruct (Py.truthy_str (max_version self)
            || Py.truthy_str (min_version self)); [|done].
  pose proof (apk_version_matches_range_run w path (min_version self)
                (max_version self)) as Hrun.
  rewrite Hget in Hrun. destruct Hrun as [-> ->]. done.
Qed.

Lemma name_step self path w1 :
  match variant self with
  | Some v =>
      if Py.truthy_str (variant self)
      then lift (file_name_matches re_search path v)
      else ret true
  | None => ret true
  end w1 = (name_predicate re_search self path, w1).
Proof.
  unfold name_predicate. destruct (variant self) as [v|]; [|done].
  by destruct (Py.truthy_str (Some v)).
Qed.

Lemma package_step self path w info w1 :
  get_cacheable_apk_info (Some path) w = (Ok info, w1) ->
  match package self with
  | Some p =>
      if Py.truthy_str (package self) then package_name_matches path p
      else ret true
  | None => ret true
  end w1 = (package_predicate self path w, w1).
Proof.
  intros Hget. unfold package_predicate.
  destruct (package self) as [p|]; [|done].
  destruct (Py.truthy_str (Some p)); [|done].
  pose proof (package_name_matches_run w path p) as Hrun.
  rewrite Hget in Hrun. destruct Hrun as [-> ->]. done.
Qed.

Lemma abi_step self path w info w1 :
  get_cacheable_apk_info (Some path) w = (Ok info, w1) ->
  match supported_abi self with
  | Some l =>
      if Py.truthy_list (supported_abi self)
      then apk_abi_matches path (Types.StrList l) (exact_abi self)
      else ret true
  | None => ret true
  end w1 = (abi_predicate self path w, w1).
Proof.
  intros Hget. unfold abi_predicate.
  destruct (supported_abi self) as [l|]; [|done].
  destruct (Py.truthy_list (Some l)); [|done].
  pose proof (apk_abi_matches_run w path (Types.StrList l) (exact_abi self))
    as Hrun.
  rewrite Hget in Hrun. destruct Hrun as [-> ->]. done.
Qed.

Lemma ApkFile_match_run self path w :
  fst (ApkFile_match re_search self path w)
  = all_of [uiauto_predicate self path w;
            version_predicate self path w;
            version_range_predicate self path w;
            name_predicate re_search self path;
            package_predicate self path w;
            abi_predicate self path w].
Proof.
  unfold ApkFile_match, uiauto_predicate.
  pose proof (uiauto_test_matches_run w path (uiauto self)) as Hrun.
  destruct (get_cacheable_apk_info (Some path) w) as [[info|e] w1] eqn:Hget.
  - destruct Hrun as [Hrun _].
    rewrite (bind_step _ _ w _ w1 Hrun). rewrite Hrun. cbn [fst].
    assert (exists u, uiauto_answer (uiauto self) info = Ok u) as [u ->]
      by (destruct info; simpl; eauto).
    rewrite (bind_step _ _ w1 _ w1 (version_step self path w info w1 Hget)).
    destruct (version_predicate self path w) as [v|?]; [|done].
    rewrite (bind_step _ _ w1 _ w1
               (version_range_step self path w info w1 Hget)).
    destruct (version_range_predicate self path w) as [g|?]; [|done].
    rewrite (bind_step _ _ w1 _ w1 (name_step self path w1)).
    destruct (name_predicate re_search self path) as [n|?]; [|done].
    rewrite (bind_step _ _ w1 _ w1 (package_step self path w info w1 Hget)).
    destruct (package_predicate self path w) as [p|?]; [|done].
    rewrite (bind_step _ _ w1 _ w1 (abi_step self path w info w1 Hget)).
    destruct (abi_predicate self path w) as [a|?]; [|done].
    cbn. f_equal. by destruct n, v, g, u, p, a.
  - rewrite (bind_step _ _ w _ w Hrun). by rewrite Hrun.
Qed.

End MatchFacts.

(** C3, as the code has it.  [ApkFile.match] is the logical AND of the
    UI-automation predicate, which is always evaluated with the [uiauto]
    flag ([False] when the caller leaves it out), and of those of the
    version, version-range, name, package and ABI predicates whose
    parameter is supplied; each of these five answers [True] when its
    parameter is [None] or empty.  Every predicate answers as it does when
    evaluated on its own in the state before the call. *)
Theorem ApkFile_match_conjunction
    (re_search : string -> string -> result bool) (self : ApkFile)
    (path : string) (w : World) :
  fst (ApkFile_match re_search self path w)
  = all_of [uiauto_predicate self path w;
            version_predicate self path w;
            version_range_predicate self path w;
            name_predicate re_search self path;
            package_predicate self path w;
            abi_predicate self path w]
  /\ uiauto_predicate self path w
     = fst (uiauto_test_matches path (uiauto self) w)
  /\ (Types.truthy (version self) = false ->
      version_predicate self path w = Ok true)
  /\ (Py.truthy_str (min_version self) = false ->
      Py.truthy_str (max_version self) = false ->
      version_range_predicate self path w = Ok true)
  /\ (Py.truthy_str (variant self) = false ->
      name_predicate re_search self path = Ok true)
  /\ (Py.truthy_str (package self) = false ->
      package_predicate self path w = Ok true)
  /\ (Py.truthy_list (supported_abi self) = false ->
      abi_predicate self path w = Ok true).
Proof.
  split; [apply ApkFile_match_run|]. split; [done|].
  unfold version_predicate, version_range_predicate, name_predicate,
    package_predicate, abi_predicate.
  repeat split.
  - intros ->. by destruct (version self).
  - by intros -> ->.
  - intros ->. by destruct (variant self).
  - intros ->. by destruct (package self).
  - intros ->. by destruct (supported_abi self).
Qed.

(** A request with no parameter supplied, against a UI-automation test
    package: the five optional predicates answer [True] and the match is
    [False]. *)
Lemma ApkFile_match_default_rejects_uiauto :
  all_of [version_predicate (ApkFile_default "dhrystone")
            "/apks/uiauto.apk" Sample.world0;
          version_range_predicate (ApkFile_default "dhrystone")
            "/apks/uiauto.apk" Sample.world0;
          name_predicate Sample.re_none (ApkFile_default "dhrystone")
            "/apks/uiauto.apk";
          package_predicate (ApkFile_default "dhrystone")
            "/apks/uiauto.apk" Sample.world0;
          abi_predicate (ApkFile_default "dhrystone")
            "/apks/uiauto.apk" Sample.world0] = Ok true
  /\ fst (ApkFile_match Sample.re_none (ApkFile_default "dhrystone")
            "/apks/uiauto.apk" Sample.world0) = Ok false.
Proof. by vm_compute. Qed.

Lemma ApkFile_match_conjunction_witness :
  fst (ApkFile_match Sample.re_none
         {| apk_owner := "dhrystone"; variant := None;
            version := Some (Types.OneStr "2.5");
            package := Some "com.example.app"%string;
            uiauto := false; exact_abi := false; supported_abi := None;
            min_version := None; max_version := None |}
         "/apks/app.apk" Sample.world0) = Ok true.
Proof.
  destruct (ApkFile_match_conjunction Sample.re_none
              {| apk_owner := "dhrystone"; variant := None;
                 version := Some (Types.OneStr "2.5");
                 package := Some "com.example.app"%string;
                 uiauto := false; exact_abi := false; supported_abi := None;
                 min_version := None; max_version := None |}
              "/apks/app.apk" Sample.world0)
    as (Hmatch & _ & _ & Hrange & Hname & _ & Habi).
  rewrite Hmatch, Hrange, Hname, Habi by reflexivity.
  by vm_compute.
Defined.

(** ** Which evaluations of the matchers return *)

Section TotalityFacts.

Implicit Types (w : World) (path : string) (info : option ApkInfo.t).

Lemma loose_version_matching_ok (config_version : string)
    (apk_version : option string) :
  exists b, loose_version_matching config_version apk_version = Ok b.
Proof.
  unfold loose_version_matching.
  destruct (Nat.ltb_spec
              (length (Types.version_tuple apk_version))
              (length (Types.version_tuple (Some config_version))))
    as [Hlt|Hge]; [by exists false|].
  destruct (loose_version_scan_spec
              (Types.version_tuple (Some config_version))
              (Types.version_tuple apk_version)
              (seq 0 (length (Types.version_tuple (Some config_version)))))
    as (b & Hscan & _); [|by exists b].
  apply Forall_forall. intros i Hi%elem_of_seq. lia.
Qed.

Lemma apk_version_scan_ok info (version_ : list string) :
  exists b, apk_version_scan info version_ = Ok b.
Proof.
  induction version_ as [|v rest IH]; simpl; [by exists false|].
  destruct info as [i|]; [|done].
  destruct (Py.str_eq_opt v (ApkInfo.version_name i)
            || Py.str_eq_opt v (ApkInfo.version_code i)); [by exists true|].
  destruct (loose_version_matching_ok v (ApkInfo.version_name i))
    as [[|] ->]; [by exists true|done].
Qed.

(** With the module-level cache in place, the accessor answers for the
    empty path and for every path that has a file. *)
Lemma get_cacheable_ok w path (c : ApkInfoCache.t) :
  apk_info_cache w = Some c ->
  path = EmptyString \/ is_Some (apks (disk w) !! path) ->
  exists info w1, get_cacheable_apk_info (Some path) w = (Ok info, w1).
Proof.
  intros Hc Hpath.
  destruct (String.eqb_spec path EmptyString) as [->|Hne]; [by eexists _, _|].
  destruct Hpath as [?|[f Hf]]; [done|].
  destruct (ApkInfoCache.cache (ApkInfoCache._update_cache c (disk w))
              !! apk_id_of path (st_mtime f)) as [pod|] eqn:Hpod.
  - eexists _, _. by apply (get_cacheable_hit w path f c pod).
  - eexists _, _. by apply (get_cacheable_miss w path f c).
Qed.

End TotalityFacts.

(** C8, as the code has it.  The matchers catch nothing: a matcher that
    asks the accessor raises what the accessor raises, in the state as it
    was.  When the accessor returns for the path, with metadata or with
    [None], the UI-automation, package and version-range matchers return a
    boolean for every parameter value; the ABI matcher does when
    [exact_abi] is not set or some ABI is requested; the version matcher
    does when the metadata, if any, has a version name.  The name matcher
    returns a boolean when the pattern occurs in the file name or the
    regular-expression search returns.  The loose match returns a boolean
    for every requested version and every version name that is not null.
    A null or empty metadata version never passes the range match. *)
Theorem matchers_return (re_search : string -> string -> result bool)
    (w : World) (path : string) :
  (forall info w1,
     get_cacheable_apk_info (Some path) w = (Ok info, w1) ->
     (forall uiauto,
        exists b, uiauto_test_matches path uiauto w = (Ok b, w1))
     /\ (forall package,
           exists b, package_name_matches path package w = (Ok b, w1))
     /\ (forall min_version max_version,
           exists b,
             apk_version_matches_range path min_version max_version w
             = (Ok b, w1))
     /\ (forall supported_abi exact_abi,
           exact_abi = false \/ Types.list_or_string supported_abi <> [] ->
           exists b,
             apk_abi_matches path supported_abi exact_abi w = (Ok b, w1))
     /\ (forall version,
           (forall i, info = Some i -> is_Some (ApkInfo.version_name i)) ->
           exists b, apk_version_matches path version w = (Ok b, w1)))
  /\ (forall e w1,
        get_cacheable_apk_info (Some path) w = (Raise e, w1) ->
        (forall uiauto, uiauto_test_matches path uiauto w = (Raise e, w))
        /\ (forall package,
              package_name_matches path package w = (Raise e, w))
        /\ (forall min_version max_version,
              apk_version_matches_range path min_version max_version w
              = (Raise e, w))
        /\ (forall supported_abi exact_abi,
              apk_abi_matches path supported_abi exact_abi w = (Raise e, w))
        /\ (forall version,
              apk_version_matches path version w = (Raise e, w)))
  /\ (forall pattern,
        Str.contains pattern (OsPath.basename path) = true
        \/ is_Ok (re_search pattern (OsPath.basename path)) = true ->
        exists b, file_name_matches re_search path pattern = Ok b)
  /\ (forall config_version apk_version : string,
        exists b,
          loose_version_matching config_version (Some apk_version) = Ok b)
  /\ (forall apk_version min_version max_version,
        Py.truthy_str apk_version = false ->
        range_version_matching apk_version min_version max_version = false).
Proof.
  split; [|split; [|split; [|split]]].
  - intros info w1 Hget. repeat apply conj.
    + intros uiauto.
      pose proof (uiauto_test_matches_run w path uiauto) as Hrun.
      rewrite Hget in Hrun. destruct Hrun as [-> _].
      destruct info; simpl; eauto.
    + intros package.
      pose proof (package_name_matches_run w path package) as Hrun.
      rewrite Hget in Hrun. destruct Hrun as [-> _].
      destruct info; simpl; eauto.
    + intros min_version max_version.
      pose proof (apk_version_matches_range_run w path min_version
                    max_version) as Hrun.
      rewrite Hget in Hrun. destruct Hrun as [-> _].
      unfold range_answer. eauto.
    + intros supported_abi exact_abi Habi.
      pose proof (apk_abi_matches_run w path supported_abi exact_abi)
        as Hrun.
      rewrite Hget in Hrun. destruct Hrun as [-> _].
      unfold abi_answer.
      destruct info as [i|]; [|eauto].
      destruct (negb (Py.truthy_list (ApkInfo.native_code i))); [eauto|].
      destruct exact_abi; [|eauto].
      destruct Habi as [?|Habi]; [done|].
      destruct (Types.list_or_string supported_abi); [done|eauto].
    + intros version Hname.
      pose proof (apk_version_matches_run w path version) as Hrun.
      rewrite Hget in Hrun. destruct Hrun as [-> _].
      destruct (apk_version_scan_ok info (Types.list_or_string version))
        as [b Hb].
      exists b. unfold version_answer. by rewrite Hb.
  - intros e w1 Hget. repeat apply conj.
    + intros uiauto.
      pose proof (uiauto_test_matches_run w path uiauto) as Hrun.
      by rewrite Hget in Hrun.
    + intros package.
      pose proof (package_name_matches_run w path package) as Hrun.
      by rewrite Hget in Hrun.
    + intros min_version max_version.
      pose proof (apk_version_matches_range_run w path min_version
                    max_version) as Hrun.
      by rewrite Hget in Hrun.
    + intros supported_abi exact_abi.
      pose proof (apk_abi_matches_run w path supported_abi exact_abi)
        as Hrun.
      by rewrite Hget in Hrun.
    + intros version.
      pose proof (apk_version_matches_run w path version) as Hrun.
      by rewrite Hget in Hrun.
  - intros pattern Hre. unfold file_name_matches.
    destruct (Str.contains pattern (OsPath.basename path)); [eauto|].
    destruct Hre as [?|Hre]; [done|].
    destruct (re_search pattern (OsPath.basename path)) as [[|]|];
      [eauto|eauto|done].
  - intros config_version apk_version.
    apply loose_version_matching_ok.
  - intros apk_version min_version max_version Hnone.
    unfold range_version_matching. by rewrite Hnone.
Qed.

(** Evaluations that raise: every metadata-backed matcher on a path
    without a file, and the ABI matcher with [exact_abi] and nothing
    requested on a package that has native code. *)
Lemma matchers_raise :
  fst (uiauto_test_matches "/apks/missing.apk" false Sample.world0)
  = Raise (FileNotFoundError "/apks/missing.apk")
  /\ fst (package_name_matches "/apks/missing.apk" "com.example.app"
            Sample.world0)
     = Raise (FileNotFoundError "/apks/missing.apk")
  /\ fst (apk_version_matches "/apks/missing.apk" (Types.OneStr "2.5")
            Sample.world0)
     = Raise (FileNotFoundError "/apks/missing.apk")
  /\ fst (apk_version_matches_range "/apks/missing.apk"
            (Some "2.0"%string) None Sample.world0)
     = Raise (FileNotFoundError "/apks/missing.apk")
  /\ fst (apk_abi_matches "/apks/missing.apk" (Types.OneStr "arm64-v8a")
            false Sample.world0)
     = Raise (FileNotFoundError "/apks/missing.apk")
  /\ fst (apk_abi_matches "/apks/app.apk" (Types.StrList []) true
            Sample.world0)
     = Raise IndexError.
Proof. by vm_compute. Qed.

Lemma matchers_return_witness :
  (exists b w1,
     uiauto_test_matches "/apks/app.apk" false Sample.world0 = (Ok b, w1))
  /\ (exists b w1,
        apk_abi_matches "/apks/app.apk" (Types.OneStr "x86") true
          Sample.world0 = (Ok b, w1))
  /\ (exists b,
        file_name_matches Sample.re_none "/apks/app.apk" "app[0-9]*" = Ok b).
Proof.
  destruct (matchers_return Sample.re_none Sample.world0 "/apks/app.apk")
    as (Hreturns & _ & Hname & _).
  destruct (get_cacheable_apk_info (Some "/apks/app.apk"%string)
              Sample.world0) as [[info|e] w1] eqn:Hget;
    [|by vm_compute in Hget].
  destruct (Hreturns info w1 eq_refl) as (Huiauto & _ & _ & Habi & _).
  split; [|split].
  - destruct (Huiauto false) as [b Hb]. by exists b, w1.
  - destruct (Habi (Types.OneStr "x86") true) as [b Hb]; [by right|].
    by exists b, w1.
  - apply Hname. right. reflexivity.
Defined.

(** * Further properties *)

(** ** The resolver: failure, and registering one more source *)

Section ResolverMore.

Import PriorityList ResourceResolver.
Implicit Types (self : ResourceResolver.t) (regs : list (Source * Z)).

Lemma add_front {A} (x : A) (p : Z) (pl : list (Z * A)) :
  Forall (fun e => fst e < p) pl -> add x p pl = (p, x) :: pl.
Proof.
  destruct 1 as [|[q y] rest Hq _]; [done|]. simpl in *.
  by rewrite (proj2 (Z.ltb_lt q p) Hq).
Qed.

(** An entry of priority at least [p] and all the entries before it stay
    where they are when an entry of priority [p] is added. *)
Lemma add_take {A} (x : A) (p : Z) (pl : list (Z * A)) i q y :
  StronglySorted by_priority pl ->
  pl !! i = Some (q, y) -> p <= q ->
  take (S i) (add x p pl) = take (S i) pl.
Proof.
  intros Hs. revert i.
  induction Hs as [|[q0 y0] rest Hs IH Hall]; intros i Hi Hle; [done|].
  cbn [add].
  destruct (Z.ltb_spec q0 p) as [Hlt|Hge].
  - exfalso. destruct i as [|i]; simpl in Hi.
    + injection Hi as -> ->. lia.
    + rewrite Forall_forall in Hall.
      assert (by_priority (q0, y0) (q, y)) as Hq
        by (apply Hall, list_elem_of_lookup; eauto).
      unfold by_priority in Hq. simpl in Hq. lia.
  - destruct i as [|i]; [done|]. simpl in Hi.
    change (take (S (S i)) ((q0, y0) :: add x p rest))
      with ((q0, y0) :: take (S i) (add x p rest)).
    by rewrite (IH i Hi Hle).
Qed.

Lemma probe_found_take (srcs srcs' : list Source) resource i s path :
  srcs !! i = Some s ->
  (forall j s', (j < i)%nat -> srcs !! j = Some s' ->
                source_call s' resource = None) ->
  source_call s resource = Some path ->
  take (S i) srcs' = take (S i) srcs ->
  probe srcs' resource = probe srcs resource.
Proof.
  intros Hi Hbefore Hs Htake.
  assert (forall j, (j <= i)%nat -> srcs' !! j = srcs !! j) as Hsame.
  { intros j Hj.
    rewrite <- (lookup_take_lt srcs' (S i) j) by lia.
    rewrite <- (lookup_take_lt srcs (S i) j) by lia. by rewrite Htake. }
  rewrite (probe_first srcs resource i s path) by done.
  rewrite (probe_first srcs' resource i s path).
  - by rewrite Htake.
  - by rewrite Hsame.
  - intros j s' Hj Hlook. apply (Hbefore j); [done|].
    by rewrite <- Hsame by lia.
  - done.
Qed.

End ResolverMore.

(** X1.  Strict [get] raises exactly when no registered source finds the
    resource; when one does, [get] calls the same sources and returns the
    same path whether [strict] is set or not. *)
Theorem get_raises_iff_not_found (self : ResourceResolver.t)
    (resource : Resource) :
  (snd (ResourceResolver.get self resource true) = Raise ResourceError <->
   Forall (fun e => ResourceResolver.source_call (snd e) resource = None)
     (ResourceResolver.sources self))
  /\ (Exists (fun e => ResourceResolver.finds (snd e) resource)
        (ResourceResolver.sources self) ->
      ResourceResolver.get self resource true
      = ResourceResolver.get self resource false
      /\ exists path,
           snd (ResourceResolver.get self resource false) = Ok (Some path)).
Proof.
  assert (Exists (fun e => ResourceResolver.finds (snd e) resource)
            (ResourceResolver.sources self) ->
          exists called path, forall strict,
            ResourceResolver.get self resource strict
            = (called, Ok (Some path))) as Hfound.
  { intros Hex.
    destruct (first_match_exists _ resource Hex)
      as (i & p & s & path & Hi & Hbefore & Hs).
    eexists _, path. intros strict.
    by apply (get_entries_first self resource strict i p s path). }
  split.
  - split.
    + intros Hraise. apply Forall_forall. intros e He.
      destruct (ResourceResolver.source_call (snd e) resource)
        as [path|] eqn:Hcall; [|done].
      destruct Hfound as (called & path' & Hget).
      { apply Exists_exists. exists e. split; [done|]. by exists path. }
      by rewrite Hget in Hraise.
    + intros Hnone. unfold ResourceResolver.get.
      rewrite probe_none; [done|].
      unfold PriorityList.iter. by apply Forall_fmap.
  - intros Hex. destruct (Hfound Hex) as (called & path & Hget).
    split; [by rewrite !Hget|]. exists path. by rewrite Hget.
Qed.

Lemma get_raises_iff_not_found_witness :
  ResourceResolver.get (ResourceResolver.registered Sample.regs)
    Sample.jar true
  = ResourceResolver.get (ResourceResolver.registered Sample.regs)
      Sample.jar false.
Proof.
  destruct (get_raises_iff_not_found
              (ResourceResolver.registered Sample.regs) Sample.jar)
    as [_ Hfound].
  destruct Hfound as [Heq _]; [|exact Heq].
  apply Exists_cons. left. by exists "/srv/b"%string.
Defined.

(** X2.  Registering one more source at a priority no higher than that of
    the source that wins leaves [get] as it was: the same sources are
    called and the same path is returned, whatever the new source would
    answer. *)
Theorem register_not_above_winner
    (regs : list (ResourceResolver.Source * Z)) (resource : Resource)
    (strict : bool) (source : ResourceResolver.Source) (priority : Z)
    (i : nat) (p : Z) (s : ResourceResolver.Source) (path : string) :
  let self := ResourceResolver.registered regs in
  ResourceResolver.sources self !! i = Some (p, s) ->
  (forall j q s', (j < i)%nat ->
     ResourceResolver.sources self !! j = Some (q, s') ->
     ResourceResolver.source_call s' resource = None) ->
  ResourceResolver.source_call s resource = Some path ->
  priority <= p ->
  ResourceResolver.get (ResourceResolver.register self source priority)
    resource strict
  = ResourceResolver.get self resource strict
  /\ snd (ResourceResolver.get self resource strict) = Ok (Some path).
Proof.
  intros self Hi Hbefore Hs Hle. split.
  - unfold ResourceResolver.get, ResourceResolver.register.
    cbn [ResourceResolver.sources].
    rewrite (probe_found_take
               (PriorityList.iter (ResourceResolver.sources self))
               (PriorityList.iter
                  (PriorityList.add source priority
                     (ResourceResolver.sources self)))
               resource i s path); [done| | |done|].
    + unfold PriorityList.iter. by rewrite list_lookup_fmap, Hi.
    + intros j s' Hj Hlook. unfold PriorityList.iter in Hlook.
      rewrite list_lookup_fmap in Hlook.
      destruct (ResourceResolver.sources self !! j) as [[q s'']|] eqn:Hq;
        [|done].
      simpl in Hlook. injection Hlook as ->. by apply (Hbefore j q).
    + unfold PriorityList.iter. rewrite <- !fmap_take. f_equal.
      apply (add_take source priority _ i p s); [|done|done].
      apply registered_from_sorted. constructor.
  - by rewrite (get_entries_first self resource strict i p s path).
Qed.

Lemma register_not_above_winner_witness :
  ResourceResolver.get
    (ResourceResolver.register (ResourceResolver.registered Sample.regs)
       Sample.A 20)
    Sample.jar true
  = ([Sample.B], Ok (Some "/srv/b"%string)).
Proof.
  destruct (register_not_above_winner Sample.regs Sample.jar true
              Sample.A 20 0%nat 20 Sample.B "/srv/b"%string) as [Hsame _].
  - reflexivity.
  - intros j q s' Hj. lia.
  - reflexivity.
  - lia.
  - rewrite Hsame. reflexivity.
Defined.

(** X3.  A source registered at a priority above every registered one, and
    that finds the resource, is the only source [get] calls, and its path
    is the result. *)
Theorem register_above_all_wins
    (regs : list (ResourceResolver.Source * Z)) (resource : Resource)
    (strict : bool) (source : ResourceResolver.Source) (priority : Z)
    (path : string) :
  Forall (fun reg => snd reg < priority) regs ->
  ResourceResolver.source_call source resource = Some path ->
  ResourceResolver.get
    (ResourceResolver.register (ResourceResolver.registered regs)
       source priority)
    resource strict
  = ([source], Ok (Some path)).
Proof.
  intros Hall Hs.
  unfold ResourceResolver.get, ResourceResolver.register.
  cbn [ResourceResolver.sources].
  rewrite add_front.
  - simpl. by rewrite Hs.
  - unfold ResourceResolver.registered.
    rewrite registered_from_Permutation. simpl. apply Forall_fmap.
    eapply Forall_impl; [exact Hall|]. by intros [s p].
Qed.

Lemma register_above_all_wins_witness :
  ResourceResolver.get
    (ResourceResolver.register (ResourceResolver.registered Sample.regs)
       Sample.A Types.SourcePriority.perferred)
    Sample.jar false
  = ([Sample.A], Ok (Some "/srv/a"%string)).
Proof.
  apply (register_above_all_wins Sample.regs Sample.jar false Sample.A
           Types.SourcePriority.perferred "/srv/a").
  - unfold Sample.regs, Types.SourcePriority.perferred.
    repeat constructor.
  - reflexivity.
Defined.

(** ** Paths and file names *)

Section PathFacts.

Import OsPath PathNotions.
Implicit Types (s t p : string) (c : ascii).

Lemma rfind_from_lacks i s c acc :
  lacks c s = true -> rfind_from i s c acc = acc.
Proof.
  revert i acc. induction s as [|a s IH]; intros i acc Hs; [done|].
  simpl in *. apply andb_true_iff in Hs as [Ha Hs].
  apply negb_true_iff in Ha. rewrite Ha. by apply IH.
Qed.

Lemma rfind_from_app i s t c acc :
  rfind_from i (s ++ t) c acc
  = rfind_from (i + Z.of_nat (String.length s)) t c (rfind_from i s c acc).
Proof.
  revert i acc. induction s as [|a s IH]; intros i acc; simpl.
  - by rewrite Z.add_0_r.
  - rewrite IH. f_equal. lia.
Qed.

Lemma drop_str_app s t : drop_str (String.length s) (s ++ t) = t.
Proof. induction s as [|a s IH]; simpl; [by destruct t|done]. Qed.

Lemma append_String a s t :
  (String a s ++ t)%string = String a (s ++ t).
Proof. reflexivity. Qed.

Lemma append_cons_assoc s a t :
  ((s ++ String a EmptyString) ++ t)%string = (s ++ String a t)%string.
Proof.
  induction s as [|b s IH]; [done|].
  by rewrite !append_String, IH.
Qed.

Lemma length_append_one s a :
  String.length (s ++ String a EmptyString) = S (String.length s).
Proof.
  induction s as [|b s IH]; [done|].
  rewrite append_String. simpl. by rewrite IH.
Qed.

Lemma basename_join directory name :
  lacks "/" name = true -> basename (join directory name) = name.
Proof.
  intros Hname. unfold basename, join, rfind, slice_from.
  rewrite rfind_from_app. simpl.
  rewrite rfind_from_lacks by done.
  replace (Z.to_nat (0 + Z.of_nat (String.length directory) + 1))
    with (String.length (directory ++ "/"))
    by (rewrite length_append_one; lia).
  rewrite <- (append_cons_assoc directory "/" name). apply drop_str_app.
Qed.

Lemma basename_plain name : lacks "/" name = true -> basename name = name.
Proof.
  intros Hname. unfold basename, rfind, slice_from.
  by rewrite rfind_from_lacks.
Qed.

Lemma split_lacks c s : lacks c s = true -> Str.split c s = [s].
Proof.
  induction s as [|a s IH]; intros Hs; [done|].
  simpl in *. apply andb_true_iff in Hs as [Ha Hs].
  apply negb_true_iff in Ha. rewrite Ha. by rewrite IH.
Qed.

Lemma split_dotted c s t :
  lacks c s = true ->
  Str.split c (s ++ String c t) = s :: Str.split c t.
Proof.
  induction s as [|a s IH]; intros Hs; simpl.
  - by rewrite Ascii.eqb_refl.
  - simpl in Hs. apply andb_true_iff in Hs as [Ha Hs].
    apply negb_true_iff in Ha. rewrite Ha. by rewrite IH.
Qed.

Lemma split_cons c s : exists w ws, Str.split c s = w :: ws.
Proof.
  induction s as [|a s (w & ws & IH)]; simpl; [by eexists _, _|].
  destruct (Ascii.eqb a c); [by eexists _, _|].
  rewrite IH. by eexists _, _.
Qed.

Lemma lacks_app c s t :
  lacks c (s ++ t) = lacks c s && lacks c t.
Proof.
  induction s as [|a s IH]; simpl; [done|].
  by rewrite IH, andb_assoc.
Qed.

End PathFacts.

Section BasenameFacts.

Import OsPath PathNotions.

(** A string lacks [c] or splits at its last [c]. *)
Lemma last_occurrence (c : ascii) (p : string) :
  lacks c p = true
  \/ exists s t, p = (s ++ String c t)%string /\ lacks c t = true.
Proof.
  induction p as [|a p [IH|(s & t & -> & Ht)]].
  - by left.
  - simpl. destruct (Ascii.eqb_spec a c) as [->|Hne].
    + right. by exists EmptyString, p.
    + left. by rewrite IH.
  - right. by exists (String a s), t.
Qed.

(** The last component of a path holds no slash. *)
Lemma basename_lacks_slash (p : string) : lacks "/" (basename p) = true.
Proof.
  destruct (last_occurrence "/" p) as [Hp|(s & t & -> & Ht)].
  - by rewrite basename_plain.
  - change (s ++ String "/" t)%string with (join s t).
    by rewrite basename_join.
Qed.

End BasenameFacts.

(** X4.  An [Executable] matches a path exactly when the path's last
    component is its file name, in any directory and for any [abi]; a
    file name that holds a slash matches no path at all. *)
Theorem Executable_match_path_last_component (owner abi filename : string) :
  (forall directory name,
     PathNotions.lacks "/" name = true ->
     (match_path (Executable owner abi filename)
        (PathNotions.join directory name) = true <-> filename = name)
     /\ (match_path (Executable owner abi filename) name = true
         <-> filename = name))
  /\ (PathNotions.lacks "/" filename = false ->
      forall path, match_path (Executable owner abi filename) path = false).
Proof.
  split.
  - intros directory name Hname. simpl.
    rewrite basename_join, basename_plain by done.
    by rewrite String.eqb_eq.
  - intros Hslash path. simpl. apply String.eqb_neq. intros ->.
    by rewrite basename_lacks_slash in Hslash.
Qed.

Lemma Executable_match_path_last_component_witness :
  match_path (Executable "dhrystone" "arm64" "dhrystone")
    (PathNotions.join "/usr/share/wa/bin/arm64" "dhrystone") = true
  /\ match_path (Executable "dhrystone" "arm64" "arm64/dhrystone")
       "/usr/share/wa/bin/arm64/dhrystone" = false.
Proof.
  destruct (Executable_match_path_last_component "dhrystone" "arm64"
              "dhrystone") as [Hname _].
  destruct (Executable_match_path_last_component "dhrystone" "arm64"
              "arm64/dhrystone") as [_ Hslash].
  split.
  - by apply (Hname "/usr/share/wa/bin/arm64"%string "dhrystone"%string).
  - by apply Hslash.
Defined.

(** X5.  Revent file names.  For a file named [target.stage.ext], with
    any further dots in [ext], a [ReventFile] matches exactly when its
    target and its stage are those of the name, so a request without
    target never matches it.  For a file named [stage.ext], a [ReventFile]
    matches exactly when its stage is that of the name, whatever its
    target. *)
Theorem ReventFile_match_path_names (directory target stage ext : string) :
  PathNotions.lacks "/" target = true ->
  PathNotions.lacks "/" stage = true ->
  PathNotions.lacks "/" ext = true ->
  PathNotions.lacks "." target = true ->
  PathNotions.lacks "." stage = true ->
  (forall owner requested_stage requested_target,
     match_path (ReventFile owner requested_stage requested_target)
       (PathNotions.join directory
          (PathNotions.dotted target (PathNotions.dotted stage ext)))
     = Py.opt_str_eqb (Some target) requested_target
       && String.eqb stage requested_stage)
  /\ (forall owner requested_stage,
        match_path (ReventFile owner requested_stage None)
          (PathNotions.join directory
             (PathNotions.dotted target (PathNotions.dotted stage ext)))
        = false)
  /\ (PathNotions.lacks "." ext = true ->
      forall owner requested_stage requested_target,
        match_path (ReventFile owner requested_stage requested_target)
          (PathNotions.join directory (PathNotions.dotted stage ext))
        = String.eqb stage requested_stage).
Proof.
  intros Htarget Hstage Hext Htdot Hsdot.
  assert (forall owner requested_stage requested_target,
     match_path (ReventFile owner requested_stage requested_target)
       (PathNotions.join directory
          (PathNotions.dotted target (PathNotions.dotted stage ext)))
     = Py.opt_str_eqb (Some target) requested_target
       && String.eqb stage requested_stage) as Hthree.
  { intros owner requested_stage requested_target. simpl.
    rewrite basename_join.
    - unfold PathNotions.dotted. rewrite !split_dotted by done.
      by destruct (split_cons "." ext) as (w & ws & ->).
    - unfold PathNotions.dotted.
      rewrite !lacks_app. simpl. rewrite lacks_app. simpl.
      by rewrite Htarget, Hstage, Hext. }
  split; [done|]. split.
  - intros owner requested_stage. by rewrite Hthree.
  - intros Hedot owner requested_stage requested_target. simpl.
    rewrite basename_join.
    + unfold PathNotions.dotted. rewrite split_dotted by done.
      by rewrite (split_lacks "." ext).
    + unfold PathNotions.dotted. rewrite lacks_app. simpl.
      by rewrite Hstage, Hext.
Qed.

Lemma ReventFile_match_path_names_witness :
  match_path (ReventFile "angrybirds" "setup" (Some "juno"%string))
    "/wa/revent/juno.setup.revent" = true
  /\ match_path (ReventFile "angrybirds" "setup" None)
       "/wa/revent/juno.setup.revent" = false
  /\ match_path (ReventFile "angrybirds" "setup" (Some "juno"%string))
       "/wa/revent/setup.revent" = true.
Proof.
  destruct (ReventFile_match_path_names "/wa/revent" "juno" "setup" "revent")
    as (Hthree & Hnone & Htwo); try reflexivity.
  split; [|split].
  - exact (Hthree "angrybirds"%string "setup"%string (Some "juno"%string)).
  - exact (Hnone "angrybirds"%string "setup"%string).
  - exact (Htwo eq_refl "angrybirds"%string "setup"%string
             (Some "juno"%string)).
Defined.

(** X6.  The name matcher looks at the last component of the path only.
    When the pattern occurs literally in that component it accepts without
    consulting the regular-expression search, so also for a pattern the
    search would reject as malformed; otherwise its outcome is that of the
    search on the component. *)
Theorem file_name_matches_last_component
    (re_search : string -> string -> result bool)
    (directory name pattern : string) :
  PathNotions.lacks "/" name = true ->
  file_name_matches re_search (PathNotions.join directory name) pattern
  = file_name_matches re_search name pattern
  /\ (Str.contains pattern name = true ->
      file_name_matches re_search (PathNotions.join directory name) pattern
      = Ok true)
  /\ (Str.contains pattern name = false ->
      file_name_matches re_search (PathNotions.join directory name) pattern
      = re_search pattern name).
Proof.
  intros Hname. unfold file_name_matches.
  rewrite basename_join, basename_plain by done.
  split; [done|]. split; intros ->; [done|].
  by destruct (re_search pattern name) as [[|]|].
Qed.

Lemma file_name_matches_last_component_witness :
  file_name_matches (fun _ _ => Raise ReError) "/apks/app(1).apk" "(1"
  = Ok true.
Proof.
  destruct (file_name_matches_last_component (fun _ _ => Raise ReError)
              "/apks" "app(1).apk" "(1") as (_ & Hliteral & _).
  - reflexivity.
  - apply Hliteral. reflexivity.
Defined.

(** ** The version matcher *)

Section VersionMatcherFacts.

Lemma loose_version_matching_true (config_version : string)
    (apk_version : option string) :
  loose_version_matching config_version apk_version = Ok true <->
  Types.version_tuple (Some config_version)
    `prefix_of` Types.version_tuple apk_version.
Proof.
  unfold loose_version_matching.
  destruct (Nat.ltb_spec
              (length (Types.version_tuple apk_version))
              (length (Types.version_tuple (Some config_version))))
    as [Hlt|Hge].
  - split; [done|]. intros Hpre%prefix_length. lia.
  - destruct (loose_version_scan_spec
                (Types.version_tuple (Some config_version))
                (Types.version_tuple apk_version)
                (seq 0 (length (Types.version_tuple (Some config_version)))))
      as (b & -> & Hb).
    { apply Forall_forall. intros i Hi%elem_of_seq. lia. }
    rewrite <- agree_prefix by done. rewrite <- Hb.
    split; [by intros [= ->]|by intros ->].
Qed.

Lemma str_eq_opt_true (a : string) (b : option string) :
  Py.str_eq_opt a b = true <-> b = Some a.
Proof.
  destruct b as [b|]; simpl; [|done].
  rewrite String.eqb_eq. split; [by intros ->|by intros [= ->]].
Qed.

(** The loop over the requested versions accepts exactly when one of them
    is the version name, is the version code, or loosely matches the
    version name. *)
Lemma apk_version_scan_true (i : ApkInfo.t) (version_ : list string) :
  apk_version_scan (Some i) version_ = Ok true <->
  exists v, v ∈ version_
    /\ (ApkInfo.version_name i = Some v
        \/ ApkInfo.version_code i = Some v
        \/ Types.version_tuple (Some v)
             `prefix_of` Types.version_tuple (ApkInfo.version_name i)).
Proof.
  induction version_ as [|v rest IH]; simpl.
  - split; [done|]. by intros (v & Hin%elem_of_nil & _).
  - destruct (Py.str_eq_opt v (ApkInfo.version_name i)) eqn:Hname; simpl.
    { split; [|done]. intros _. exists v. split; [by left|].
      left. by apply str_eq_opt_true. }
    destruct (Py.str_eq_opt v (ApkInfo.version_code i)) eqn:Hcode; simpl.
    { split; [|done]. intros _. exists v. split; [by left|].
      right. left. by apply str_eq_opt_true. }
    destruct (loose_version_matching_ok v (ApkInfo.version_name i))
      as [b Hloose].
    pose proof (loose_version_matching_true v (ApkInfo.version_name i))
      as Hprefix.
    rewrite Hloose in *. destruct b.
    { split; [|done]. intros _. exists v. split; [by left|].
      right. right. by apply Hprefix. }
    rewrite IH. split.
    + intros (v' & Hin & Hv'). exists v'. split; [by right|done].
    + intros (v' & [->|Hin]%elem_of_cons & Hv').
      * exfalso. destruct Hv' as [Hv'|[Hv'|Hv']].
        -- apply str_eq_opt_true in Hv'. congruence.
        -- apply str_eq_opt_true in Hv'. congruence.
        -- by apply Hprefix in Hv'.
      * by exists v'.
Qed.

End VersionMatcherFacts.

(** X7.  For a path whose metadata the accessor gives, the version matcher
    accepts exactly when one of the requested versions equals the
    metadata's version name, equals its version code, or has a version
    tuple that is a prefix of the version name's. *)
Theorem apk_version_matches_accepts (path : string)
    (version : Types.StrOrList) (w : World) (info : ApkInfo.t) :
  fst (get_cacheable_apk_info (Some path) w) = Ok (Some info) ->
  fst (apk_version_matches path version w) = Ok true <->
  exists v, v ∈ Types.list_or_string version
    /\ (ApkInfo.version_name info = Some v
        \/ ApkInfo.version_code info = Some v
        \/ Types.version_tuple (Some v)
             `prefix_of`
             Types.version_tuple (ApkInfo.version_name info)).
Proof.
  intros Hget.
  pose proof (apk_version_matches_run w path version) as Hrun.
  destruct (get_cacheable_apk_info (Some path) w) as [[i|e] w1];
    [|discriminate]. simpl in Hget. injection Hget as ->.
  destruct Hrun as [-> _]. cbn [fst]. unfold version_answer.
  apply apk_version_scan_true.
Qed.

Lemma apk_version_matches_accepts_witness :
  fst (apk_version_matches "/apks/app.apk"
         (Types.StrList ["3.0"; "2.5"]) Sample.world0) = Ok true
  /\ fst (apk_version_matches "/apks/app.apk"
            (Types.StrList ["251"]) Sample.world0) = Ok true.
Proof.
  split.
  - apply (apk_version_matches_accepts "/apks/app.apk"
             (Types.StrList ["3.0"; "2.5"]) Sample.world0 Sample.app_info);
      [by vm_compute|].
    exists "2.5"%string. split; [set_solver|].
    right. right. by exists [Types.Num 1].
  - apply (apk_version_matches_accepts "/apks/app.apk"
             (Types.StrList ["251"]) Sample.world0 Sample.app_info);
      [by vm_compute|].
    exists "251"%string. split; [set_solver|]. right. by left.
Defined.

(** ** What a match tells, and what it leaves behind *)

Section MatchMore.

Context (re_search : string -> string -> result bool).
Implicit Types (self : ApkFile) (w : World) (path : string).

Lemma all_of_true (answers : list (result bool)) :
  all_of answers = Ok true -> Forall (fun r => r = Ok true) answers.
Proof.
  induction answers as [|[b|e] rest IH]; simpl; [done| |done].
  destruct (all_of rest) as [bs|e]; [|done].
  intros [= [-> ->]%andb_true_iff]. constructor; [done|by apply IH].
Qed.

(** The accessor leaves the package files as they are. *)
Lemma get_cacheable_apks w path :
  apks (disk (snd (get_cacheable_apk_info (Some path) w))) = apks (disk w).
Proof.
  unfold get_cacheable_apk_info.
  destruct (String.eqb path EmptyString); [done|].
  destruct (apks (disk w) !! path) as [f|]; [|done].
  destruct (apk_info_cache w) as [c|]; [|done].
  destruct (ApkInfoCache.get_info c _ (disk w)) as [[i|] c1]; [done|].
  by rewrite store_overwrite.
Qed.

(** The predicates answer the same in the state the accessor leaves. *)
Lemma predicates_stable self path w info w1 :
  get_cacheable_apk_info (Some path) w = (Ok info, w1) ->
  uiauto_predicate self path w1 = uiauto_predicate self path w
  /\ version_predicate self path w1 = version_predicate self path w
  /\ version_range_predicate self path w1
     = version_range_predicate self path w
  /\ package_predicate self path w1 = package_predicate self path w
  /\ abi_predicate self path w1 = abi_predicate self path w.
Proof.
  intros Hget.
  unfold uiauto_predicate, version_predicate, version_range_predicate,
    package_predicate, abi_predicate.
  repeat split.
  - pose proof (uiauto_test_matches_run w path (uiauto self)) as Hrun.
    rewrite Hget in Hrun. by destruct Hrun as [-> ->].
  - destruct (version self) as [v|]; [|done].
    pose proof (apk_version_matches_run w path v) as Hrun.
    rewrite Hget in Hrun. by destruct Hrun as [-> ->].
  - pose proof (apk_version_matches_range_run w path (min_version self)
                  (max_version self)) as Hrun.
    rewrite Hget in Hrun. by destruct Hrun as [-> ->].
  - destruct (package self) as [p|]; [|done].
    pose proof (package_name_matches_run w path p) as Hrun.
    rewrite Hget in Hrun. by destruct Hrun as [-> ->].
  - destruct (supported_abi self) as [l|]; [|done].
    pose proof (apk_abi_matches_run w path (Types.StrList l)
                  (exact_abi self)) as Hrun.
    rewrite Hget in Hrun. by destruct Hrun as [-> ->].
Qed.

(** The state a match leaves is the one the accessor leaves. *)
Lemma ApkFile_match_state self path w :
  snd (ApkFile_match re_search self path w)
  = snd (get_cacheable_apk_info (Some path) w).
Proof.
  unfold ApkFile_match.
  pose proof (uiauto_test_matches_run w path (uiauto self)) as Hrun.
  destruct (get_cacheable_apk_info (Some path) w) as [[info|e] w1] eqn:Hget.
  - destruct Hrun as [Hrun _].
    rewrite (bind_step _ _ w _ w1 Hrun).
    assert (exists u, uiauto_answer (uiauto self) info = Ok u) as [u ->]
      by (destruct info; simpl; eauto).
    rewrite (bind_step _ _ w1 _ w1 (version_step self path w info w1 Hget)).
    destruct (version_predicate self path w) as [v|?]; [|done].
    rewrite (bind_step _ _ w1 _ w1
               (version_range_step self path w info w1 Hget)).
    destruct (version_range_predicate self path w) as [g|?]; [|done].
    rewrite (bind_step _ _ w1 _ w1 (name_step re_search self path w1)).
    destruct (name_predicate re_search self path) as [n|?]; [|done].
    rewrite (bind_step _ _ w1 _ w1 (package_step self path w info w1 Hget)).
    destruct (package_predicate self path w) as [p|?]; [|done].
    rewrite (bind_step _ _ w1 _ w1 (abi_step self path w info w1 Hget)).
    by destruct (abi_predicate self path w) as [a|?].
  - rewrite (bind_step _ _ w _ w Hrun). simpl.
    symmetry. by apply (get_cacheable_raise_state w path e w1).
Qed.

End MatchMore.

(** X8.  What an accepting match tells about the package: the accessor
    gave its metadata; its identifier holds the UI-automation marker
    exactly when [uiauto] is set; a requested package is its package; a
    requested version range holds its version name; one of the requested
    versions is, or loosely matches, its version; if it has native code,
    one of the requested ABIs is among it; and a requested name pattern
    matches its file name. *)
Theorem ApkFile_match_sound (re_search : string -> string -> result bool)
    (self : ApkFile) (path : string) (w : World) :
  fst (ApkFile_match re_search self path w) = Ok true ->
  exists info : ApkInfo.t,
    fst (get_cacheable_apk_info (Some path) w) = Ok (Some info)
    /\ uiauto self
       = Str.contains "com.arm.wa.uiauto"
           (default EmptyString (ApkInfo.package info))
    /\ (Py.truthy_str (package self) = true ->
        ApkInfo.package info = package self)
    /\ (Py.truthy_str (max_version self) || Py.truthy_str (min_version self)
        = true ->
        range_version_matching (ApkInfo.version_name info)
          (min_version self) (max_version self) = true)
    /\ (forall v, version self = Some v ->
          Types.truthy (version self) = true ->
          exists r, r ∈ Types.list_or_string v
            /\ (ApkInfo.version_name info = Some r
                \/ ApkInfo.version_code info = Some r
                \/ Types.version_tuple (Some r)
                     `prefix_of`
                     Types.version_tuple (ApkInfo.version_name info)))
    /\ (forall l, supported_abi self = Some l -> l <> [] ->
          Py.truthy_list (ApkInfo.native_code info) = true ->
          exists abi, abi ∈ l
                      /\ abi ∈ default [] (ApkInfo.native_code info))
    /\ (forall v, variant self = Some v -> v <> EmptyString ->
          file_name_matches re_search path v = Ok true).
Proof.
  rewrite ApkFile_match_run. intros Hall%all_of_true.
  apply Forall_cons_1 in Hall as [Huiauto Hall].
  apply Forall_cons_1 in Hall as [Hversion Hall].
  apply Forall_cons_1 in Hall as [Hrange Hall].
  apply Forall_cons_1 in Hall as [Hname Hall].
  apply Forall_cons_1 in Hall as [Hpackage Hall].
  apply Forall_cons_1 in Hall as [Habi _].
  unfold uiauto_predicate in Huiauto.
  pose proof (uiauto_test_matches_run w path (uiauto self)) as Hrun.
  destruct (get_cacheable_apk_info (Some path) w) as [[[info|]|e] w1] eqn:Hget;
    [|destruct Hrun as [Hrun _]; by rewrite Hrun in Huiauto
     |by rewrite Hrun in Huiauto].
  destruct Hrun as [Hrun _]. rewrite Hrun in Huiauto. simpl in Huiauto.
  exists info. split; [done|]. split; [|split; [|split; [|split; [|split]]]].
  - injection Huiauto as Heq. by apply Bool.eqb_prop.
  - intros Htruthy. unfold package_predicate in Hpackage.
    destruct (package self) as [p|]; [|done]. rewrite Htruthy in Hpackage.
    pose proof (package_name_matches_run w path p) as Hp.
    rewrite Hget in Hp. destruct Hp as [Hp _]. rewrite Hp in Hpackage.
    simpl in Hpackage. injection Hpackage as Heq.
    destruct (ApkInfo.package info) as [q|]; [|done]. simpl in Heq.
    by apply String.eqb_eq in Heq as ->.
  - intros Htruthy. unfold version_range_predicate in Hrange.
    rewrite Htruthy in Hrange.
    pose proof (apk_version_matches_range_run w path (min_version self)
                  (max_version self)) as Hr.
    rewrite Hget in Hr. destruct Hr as [Hr _]. rewrite Hr in Hrange.
    simpl in Hrange. by injection Hrange.
  - intros v Hv Htruthy. unfold version_predicate in Hversion.
    rewrite Hv in Hversion. rewrite Hv in Htruthy.
    rewrite Htruthy in Hversion.
    pose proof (apk_version_matches_run w path v) as Hr.
    rewrite Hget in Hr. destruct Hr as [Hr _]. rewrite Hr in Hversion.
    by apply apk_version_scan_true.
  - intros l Hl Hne Hnative. unfold abi_predicate in Habi.
    rewrite Hl in Habi.
    assert (Py.truthy_list (Some l) = true) as Htruthy by (by destruct l).
    rewrite Htruthy in Habi.
    pose proof (apk_abi_matches_run w path (Types.StrList l)
                  (exact_abi self)) as Hr.
    rewrite Hget in Hr. destruct Hr as [Hr _]. rewrite Hr in Habi.
    simpl in Habi. rewrite Hnative in Habi. simpl in Habi.
    destruct (exact_abi self).
    + destruct l as [|primary others]; [done|].
      injection Habi as Hin%str_in_elem_of.
      exists primary. split; [by left|done].
    + injection Habi as Hex. apply existsb_exists in Hex as (abi & Hin & Hnc).
      exists abi. split; [by apply list_elem_of_In|by apply str_in_elem_of].
  - intros v Hv Hne. unfold name_predicate in Hname. rewrite Hv in Hname.
    simpl in Hname.
    by rewrite (proj2 (String.eqb_neq _ _) Hne) in Hname.
Qed.

Lemma ApkFile_match_sound_witness :
  exists info : ApkInfo.t,
    fst (get_cacheable_apk_info (Some "/apks/app.apk"%string) Sample.world0)
    = Ok (Some info)
    /\ ApkInfo.package info = Some "com.example.app"%string.
Proof.
  destruct (ApkFile_match_sound Sample.re_none
              {| apk_owner := "dhrystone"; variant := None;
                 version := Some (Types.OneStr "2.5");
                 package := Some "com.example.app"%string;
                 uiauto := false; exact_abi := false; supported_abi := None;
                 min_version := None; max_version := None |}
              "/apks/app.apk" Sample.world0)
    as (info & Hget & _ & Hpackage & _); [by vm_compute|].
  exists info. split; [done|]. by apply Hpackage.
Defined.

(** X9.  A match can be repeated: run again from the state it leaves, it
    gives the same outcome and leaves that state as it is.  It never
    changes the package files. *)
Theorem ApkFile_match_repeatable
    (re_search : string -> string -> result bool) (self : ApkFile)
    (path : string) (w : World) :
  ApkFile_match re_search self path
    (snd (ApkFile_match re_search self path w))
  = ApkFile_match re_search self path w
  /\ apks (disk (snd (ApkFile_match re_search self path w)))
     = apks (disk w).
Proof.
  rewrite ApkFile_match_state. split; [|apply get_cacheable_apks].
  destruct (get_cacheable_apk_info (Some path) w) as [[info|e] w1] eqn:Hget;
    cbn [snd].
  - apply injective_projections.
    + rewrite !ApkFile_match_run.
      by destruct (predicates_stable self path w info w1 Hget)
        as (-> & -> & -> & -> & ->).
    + rewrite !ApkFile_match_state.
      by rewrite Hget, (get_cacheable_stable w path info w1 Hget).
  - by apply get_cacheable_raise_state in Hget as ->.
Qed.

(** ** The cache: keeping in step with the file *)

Section CacheMore.

Import ApkInfoCache CacheNotions.
Implicit Types (self : ApkInfoCache.t) (d : Disk) (info : ApkInfo.t)
  (key : string).

Lemma in_sync_update_cache self d :
  in_sync self d -> _update_cache self d = self.
Proof.
  unfold in_sync, _update_cache.
  destruct (pods d !! path self) as [f|]; [|done].
  intros [Hstat _]. by rewrite bool_decide_eq_true_2.
Qed.

Lemma stored_in_sync self info key d :
  in_sync (fst (stored self info key d)) (snd (stored self info key d)).
Proof.
  unfold in_sync, stored, write_pod. cbn [fst snd path pods].
  by rewrite lookup_insert_eq.
Qed.

Lemma store_outcome self info key overwrite d :
  store self info key overwrite d
  = (Ok tt, fst (stored self info key d), snd (stored self info key d))
  \/ store self info key overwrite d
     = (Raise ValueError, _update_cache self d, d).
Proof.
  destruct overwrite; [left; apply store_overwrite|].
  destruct (cache (_update_cache self d) !! key) as [pod|] eqn:Hkey.
  - right. by apply store_duplicate.
  - left. by apply store_fresh.
Qed.

Lemma store_ok_stored self info key overwrite d (self' : ApkInfoCache.t)
    (d' : Disk) :
  store self info key overwrite d = (Ok tt, self', d') ->
  self' = fst (stored self info key d) /\ d' = snd (stored self info key d).
Proof.
  intros Hstore.
  destruct (store_outcome self info key overwrite d) as [Hok|Hdup];
    rewrite Hstore in *; [|done].
  remember (stored self info key d) as st eqn:Hst.
  by injection Hok as -> ->.
Qed.

Lemma append_inj_l (s t1 t2 : string) :
  (s ++ t1)%string = (s ++ t2)%string -> t1 = t2.
Proof.
  induction s as [|a s IH]; [done|].
  rewrite !append_String. by intros [= H%IH].
Qed.

End CacheMore.

(** X10.  Memory and file stay in step.  A new instance is in step with
    its file, and so is the instance after every [store] that succeeds.
    For an instance in step, [get_info] answers from the table in memory
    and leaves the instance as it is; over a missing file a new instance
    holds no entry. *)
Theorem cache_in_sync (path : string) (self : ApkInfoCache.t) (d : Disk) :
  CacheNotions.in_sync (ApkInfoCache.init path d) d
  /\ (forall info key overwrite self' d',
        ApkInfoCache.store self info key overwrite d = (Ok tt, self', d') ->
        CacheNotions.in_sync self' d')
  /\ (CacheNotions.in_sync self d ->
      forall key,
        ApkInfoCache.get_info self key d
        = (ApkInfo.from_pod <$> ApkInfoCache.cache self !! key, self))
  /\ (pods d !! path = None ->
      forall key,
        fst (ApkInfoCache.get_info (ApkInfoCache.init path d) key d) = None).
Proof.
  split; [|split; [|split]].
  - unfold CacheNotions.in_sync, ApkInfoCache.init,
      ApkInfoCache._update_cache. cbn [ApkInfoCache.path].
    destruct (pods d !! path) as [f|] eqn:Hf; cbn [ApkInfoCache.path].
    + rewrite bool_decide_eq_false_2 by done. cbn [ApkInfoCache.path].
      by rewrite Hf.
    + by rewrite Hf.
  - intros info key overwrite self' d' Hstore.
    destruct (store_ok_stored _ _ _ _ _ _ _ Hstore) as [-> ->].
    apply stored_in_sync.
  - intros Hsync key. unfold ApkInfoCache.get_info.
    by rewrite in_sync_update_cache.
  - intros Hnone key.
    unfold ApkInfoCache.get_info, ApkInfoCache.init,
      ApkInfoCache._update_cache. cbn [ApkInfoCache.path].
    rewrite Hnone. cbn [ApkInfoCache.path]. rewrite Hnone.
    cbn [fst ApkInfoCache.cache]. by rewrite lookup_empty.
Qed.

Lemma cache_in_sync_witness :
  fst (ApkInfoCache.get_info
         (ApkInfoCache.init Sample.cache_file Sample.disk0)
         "/apks/app.apk-1541030400.0" Sample.disk0) = None.
Proof.
  destruct (cache_in_sync Sample.cache_file
              (ApkInfoCache.init Sample.cache_file Sample.disk0)
              Sample.disk0) as (_ & _ & _ & Hmissing).
  apply Hmissing. reflexivity.
Defined.

(** X11.  A [store] that succeeds changes the answer for its own key
    only: for every other key [get_info] answers afterwards what it
    answered before. *)
Theorem store_keeps_other_keys (self self' : ApkInfoCache.t) (d d' : Disk)
    (info : ApkInfo.t) (key key' : string) (overwrite : bool) :
  ApkInfoCache.store self info key overwrite d = (Ok tt, self', d') ->
  key' <> key ->
  fst (ApkInfoCache.get_info self' key' d')
  = fst (ApkInfoCache.get_info self key' d)
  /\ fst (ApkInfoCache.get_info
            (ApkInfoCache.init (ApkInfoCache.path self) d') key' d')
     = fst (ApkInfoCache.get_info self key' d).
Proof.
  intros Hstore Hne.
  destruct (store_ok_stored _ _ _ _ _ _ _ Hstore) as [-> ->].
  rewrite init_stored.
  unfold ApkInfoCache.get_info. rewrite update_cache_stored.
  unfold ApkInfoCache.stored. cbn [fst ApkInfoCache.cache].
  by rewrite lookup_insert_ne.
Qed.

Lemma store_keeps_other_keys_witness :
  fst (ApkInfoCache.get_info
         (snd (fst (ApkInfoCache.store
                      (ApkInfoCache.init Sample.cache_file Sample.disk0)
                      Sample.app_info "/apks/app.apk-1541030400.0" false
                      Sample.disk0)))
         "/apks/uiauto.apk-1541030500.5"
         (snd (ApkInfoCache.store
                 (ApkInfoCache.init Sample.cache_file Sample.disk0)
                 Sample.app_info "/apks/app.apk-1541030400.0" false
                 Sample.disk0)))
  = None.
Proof.
  destruct (ApkInfoCache.store
              (ApkInfoCache.init Sample.cache_file Sample.disk0)
              Sample.app_info "/apks/app.apk-1541030400.0" false
              Sample.disk0) as [[r self'] d'] eqn:Hstore.
  assert (r = Ok tt) as -> by (by vm_compute in Hstore; injection Hstore).
  destruct (store_keeps_other_keys _ _ _ _ _ _
              "/apks/uiauto.apk-1541030500.5" _ Hstore) as [Hsame _];
    [done|].
  cbn [fst snd]. rewrite Hsame. reflexivity.
Defined.

(** X12.  Two instances over one file lose no entry.  When one instance
    has stored an entry and another instance, which has not recorded the
    file's new [os.stat] result, stores a second entry, the file holds
    both: a new instance reads both back. *)
Theorem two_instances_keep_both (a a1 b b2 : ApkInfoCache.t)
    (d d1 d2 : Disk) (info1 info2 : ApkInfo.t) (key1 key2 : string) :
  ApkInfoCache.path b = ApkInfoCache.path a ->
  ApkInfoCache.store a info1 key1 true d = (Ok tt, a1, d1) ->
  ApkInfoCache.last_modified b <> Some (stat_of_write d (writes d)) ->
  ApkInfoCache.store b info2 key2 true d1 = (Ok tt, b2, d2) ->
  key1 <> key2 ->
  fst (ApkInfoCache.get_info
         (ApkInfoCache.init (ApkInfoCache.path a) d2) key1 d2) = Some info1
  /\ fst (ApkInfoCache.get_info
            (ApkInfoCache.init (ApkInfoCache.path a) d2) key2 d2)
     = Some info2
  /\ fst (ApkInfoCache.get_info b2 key1 d2) = Some info1
  /\ fst (ApkInfoCache.get_info b2 key2 d2) = Some info2.
Proof.
  intros Hpath Ha Hstale Hb Hne.
  destruct (store_ok_stored _ _ _ _ _ _ _ Ha) as [-> ->].
  destruct (store_ok_stored _ _ _ _ _ _ _ Hb) as [-> ->].
  clear Ha Hb.
  set (d1 := snd (ApkInfoCache.stored a info1 key1 d)).
  assert (ApkInfoCache.cache (ApkInfoCache._update_cache b d1)
          = <[key1 := ApkInfo.to_pod info1]>
              (ApkInfoCache.cache (ApkInfoCache._update_cache a d)))
    as Hreload.
  { unfold ApkInfoCache._update_cache at 1.
    unfold d1, ApkInfoCache.stored, write_pod. cbn [snd pods].
    rewrite Hpath, lookup_insert_eq. cbn [pf_stat pf_table].
    by rewrite bool_decide_eq_false_2. }
  assert (forall k,
            fst (ApkInfoCache.get_info
                   (fst (ApkInfoCache.stored b info2 key2 d1)) k
                   (snd (ApkInfoCache.stored b info2 key2 d1)))
            = ApkInfo.from_pod
                <$> <[key2 := ApkInfo.to_pod info2]>
                      (<[key1 := ApkInfo.to_pod info1]>
                         (ApkInfoCache.cache
                            (ApkInfoCache._update_cache a d))) !! k)
    as Hget.
  { intros k. unfold ApkInfoCache.get_info. rewrite update_cache_stored.
    unfold ApkInfoCache.stored at 1. cbn [fst ApkInfoCache.cache].
    by rewrite Hreload. }
  rewrite <- Hpath, init_stored, !Hget.
  rewrite lookup_insert_ne, !lookup_insert_eq by done. simpl.
  by rewrite !from_pod_to_pod.
Qed.

Lemma two_instances_keep_both_witness :
  exists (b2 : ApkInfoCache.t) (d2 : Disk),
    fst (ApkInfoCache.get_info b2 "/apks/app.apk-1541030400.0" d2)
    = Some Sample.app_info
    /\ fst (ApkInfoCache.get_info b2 "/apks/uiauto.apk-1541030500.5" d2)
       = Some Sample.uiauto_info.
Proof.
  destruct (ApkInfoCache.store
              (ApkInfoCache.init Sample.cache_file Sample.disk0)
              Sample.app_info "/apks/app.apk-1541030400.0" true Sample.disk0)
    as [[r1 a1] d1] eqn:Ha.
  assert (r1 = Ok tt) as -> by (by vm_compute in Ha; injection Ha).
  destruct (ApkInfoCache.store
              (ApkInfoCache.init Sample.cache_file Sample.disk0)
              Sample.uiauto_info "/apks/uiauto.apk-1541030500.5" true d1)
    as [[r2 b2] d2] eqn:Hb.
  assert (r2 = Ok tt) as ->.
  { rewrite store_overwrite in Hb. by injection Hb. }
  destruct (two_instances_keep_both _ _ _ _ _ _ _ _ _ _ _ eq_refl Ha
              ltac:(done) Hb ltac:(done)) as (_ & _ & Hfirst & Hsecond).
  by exists b2, d2.
Defined.

(** ** The accessor and the files *)

Section AccessorMore.

Import CacheNotions.
Implicit Types (w : World) (path : string) (c : ApkInfoCache.t).

Lemma update_cache_replace_apk c path (f : HostFile) (d : Disk) :
  ApkInfoCache._update_cache c (replace_apk path f d)
  = ApkInfoCache._update_cache c d.
Proof. reflexivity. Qed.

Lemma apk_id_of_inj path (m1 m2 : string) :
  apk_id_of path m1 = apk_id_of path m2 -> m1 = m2.
Proof.
  unfold apk_id_of. intros H%append_inj_l.
  by apply (append_inj_l "-") in H.
Qed.

End AccessorMore.

(** X13.  With the cache in step with its file, a call of the accessor
    keeps it in step, drops or changes no entry the cache holds, and
    changes neither a package file nor any cache file but its own. *)
Theorem get_cacheable_apk_info_keeps (path : option string) (w : World)
    (c : ApkInfoCache.t) :
  apk_info_cache w = Some c ->
  CacheNotions.in_sync c (disk w) ->
  exists c' : ApkInfoCache.t,
    apk_info_cache (snd (get_cacheable_apk_info path w)) = Some c'
    /\ CacheNotions.in_sync c'
         (disk (snd (get_cacheable_apk_info path w)))
    /\ ApkInfoCache.path c' = ApkInfoCache.path c
    /\ (forall k pod,
          ApkInfoCache.cache c !! k = Some pod ->
          ApkInfoCache.cache c' !! k = Some pod)
    /\ apks (disk (snd (get_cacheable_apk_info path w))) = apks (disk w)
    /\ (forall p, p <> ApkInfoCache.path c ->
          pods (disk (snd (get_cacheable_apk_info path w))) !! p
          = pods (disk w) !! p).
Proof.
  intros Hc Hsync.
  pose proof (in_sync_update_cache c (disk w) Hsync) as Hupd.
  destruct path as [path|]; [|by exists c].
  destruct (String.eqb_spec path EmptyString) as [->|Hne]; [by exists c|].
  destruct (apks (disk w) !! path) as [f|] eqn:Hf; cycle 1.
  { rewrite get_cacheable_missing by done. by exists c. }
  destruct (ApkInfoCache.cache c !! apk_id_of path (st_mtime f))
    as [pod|] eqn:Hpod.
  - rewrite (get_cacheable_hit w path f c pod) by (by rewrite ?Hupd).
    rewrite Hupd. by exists c.
  - rewrite (get_cacheable_miss w path f c) by (by rewrite ?Hupd).
    cbv zeta. cbn [snd disk apk_info_cache].
    eexists. split; [done|]. split; [apply stored_in_sync|].
    unfold ApkInfoCache.stored, write_pod.
    cbn [fst snd ApkInfoCache.path ApkInfoCache.cache apks pods].
    rewrite Hupd. repeat split.
    + intros k pod Hk. rewrite lookup_insert_ne; [done|].
      intros <-. by rewrite Hpod in Hk.
    + intros p Hp. by rewrite lookup_insert_ne.
Qed.

Lemma get_cacheable_apk_info_keeps_witness :
  apks (disk (snd (get_cacheable_apk_info (Some "/apks/app.apk"%string)
                     Sample.world0)))
  = apks Sample.disk0.
Proof.
  destruct (get_cacheable_apk_info_keeps (Some "/apks/app.apk"%string)
              Sample.world0
              (ApkInfoCache.init Sample.cache_file Sample.disk0))
    as (c' & _ & _ & _ & _ & Hapks & _).
  - reflexivity.
  - by vm_compute.
  - exact Hapks.
Defined.

(** X14.  The cached metadata follows the modification time.  After the
    accessor has answered for a path, let the file be written anew.  If
    its modification time is unchanged, the accessor answers as before,
    whatever the file now holds.  If the time differs, and the cache held
    nothing for the path at that time, the accessor extracts the metadata
    from the new file. *)
Theorem get_cacheable_apk_info_follows_mtime (w : World) (path : string)
    (f1 f2 : HostFile) (c : ApkInfoCache.t) :
  path <> EmptyString ->
  apks (disk w) !! path = Some f1 ->
  apk_info_cache w = Some c ->
  CacheNotions.in_sync c (disk w) ->
  let w1 := snd (get_cacheable_apk_info (Some path) w) in
  let w2 := {| disk := CacheNotions.replace_apk path f2 (disk w1);
               apk_info_cache := apk_info_cache w1 |} in
  (st_mtime f2 = st_mtime f1 ->
   fst (get_cacheable_apk_info (Some path) w2)
   = fst (get_cacheable_apk_info (Some path) w))
  /\ (st_mtime f2 <> st_mtime f1 ->
      ApkInfoCache.cache c !! apk_id_of path (st_mtime f2) = None ->
      fst (get_cacheable_apk_info (Some path) w2)
      = Ok (Some (extracted f2))).
Proof.
  intros Hne Hf Hc Hsync w1 w2.
  pose proof (in_sync_update_cache c (disk w) Hsync) as Hupd.
  assert (apks (disk w2) !! path = Some f2) as Hf2.
  { unfold w2, CacheNotions.replace_apk. cbn [disk apks].
    by rewrite lookup_insert_eq. }
  destruct (ApkInfoCache.cache c !! apk_id_of path (st_mtime f1))
    as [pod|] eqn:Hpod.
  - assert (w1 = {| disk := disk w; apk_info_cache := Some c |}) as Hw1.
    { unfold w1. rewrite (get_cacheable_hit w path f1 c pod)
        by (by rewrite ?Hupd). by rewrite Hupd. }
    assert (apk_info_cache w2 = Some c) as Hc2 by (unfold w2; by rewrite Hw1).
    assert (ApkInfoCache._update_cache c (disk w2) = c) as Hupd2.
    { unfold w2. cbn [disk]. rewrite update_cache_replace_apk.
      by rewrite Hw1. }
    split.
    + intros Hsame.
      rewrite (get_cacheable_hit w2 path f2 c pod)
        by (by rewrite ?Hupd2, ?Hsame).
      by rewrite (get_cacheable_hit w path f1 c pod) by (by rewrite ?Hupd).
    + intros Hdiff Hnone.
      by rewrite (get_cacheable_miss w2 path f2 c) by (by rewrite ?Hupd2).
  - set (st := ApkInfoCache.stored c (extracted f1)
                 (apk_id_of path (st_mtime f1)) (disk w)).
    assert (w1 = {| disk := snd st; apk_info_cache := Some (fst st) |})
      as Hw1.
    { unfold w1. by rewrite (get_cacheable_miss w path f1 c)
        by (by rewrite ?Hupd). }
    assert (apk_info_cache w2 = Some (fst st)) as Hc2
      by (unfold w2; by rewrite Hw1).
    assert (ApkInfoCache._update_cache (fst st) (disk w2) = fst st) as Hupd2.
    { unfold w2. cbn [disk]. rewrite update_cache_replace_apk.
      rewrite Hw1. apply update_cache_stored. }
    assert (forall k,
              ApkInfoCache.cache (fst st) !! k
              = <[apk_id_of path (st_mtime f1)
                  := ApkInfo.to_pod (extracted f1)]>
                  (ApkInfoCache.cache c) !! k) as Htable.
    { intros k. unfold st, ApkInfoCache.stored.
      cbn [fst ApkInfoCache.cache]. by rewrite Hupd. }
    split.
    + intros Hsame.
      rewrite (get_cacheable_hit w2 path f2 (fst st)
                 (ApkInfo.to_pod (extracted f1))); try done.
      * rewrite (get_cacheable_miss w path f1 c) by (by rewrite ?Hupd).
        cbn [fst]. by rewrite from_pod_to_pod.
      * rewrite Hupd2, Htable, Hsame. apply lookup_insert_eq.
    + intros Hdiff Hnone.
      rewrite (get_cacheable_miss w2 path f2 (fst st)); try done.
      rewrite Hupd2, Htable. rewrite lookup_insert_ne; [done|].
      intros Heq%apk_id_of_inj. by symmetry in Heq.
Qed.

Lemma get_cacheable_apk_info_follows_mtime_witness :
  fst (get_cacheable_apk_info (Some "/apks/app.apk"%string)
         {| disk :=
              CacheNotions.replace_apk "/apks/app.apk"
                {| st_mtime := "1541030999.0";
                   extracted := Sample.uiauto_info |}
                (disk (snd (get_cacheable_apk_info
                              (Some "/apks/app.apk"%string) Sample.world0)));
            apk_info_cache :=
              apk_info_cache
                (snd (get_cacheable_apk_info
                        (Some "/apks/app.apk"%string) Sample.world0)) |})
  = Ok (Some Sample.uiauto_info).
Proof.
  destruct (get_cacheable_apk_info_follows_mtime Sample.world0
              "/apks/app.apk"
              {| st_mtime := "1541030400.0"; extracted := Sample.app_info |}
              {| st_mtime := "1541030999.0";
                 extracted := Sample.uiauto_info |}
              (ApkInfoCache.init Sample.cache_file Sample.disk0))
    as [_ Hdiff].
  - done.
  - by vm_compute.
  - reflexivity.
  - by vm_compute.
  - apply Hdiff; [done|by vm_compute].
Defined.

(** ** The launch command *)

Section LaunchFacts.

Import LaunchNotions.
Implicit Types (items : list (string * PyValue)) (s t u : string).

Lemma append_assoc s t u : ((s ++ t) ++ u)%string = (s ++ t ++ u)%string.
Proof.
  induction s as [|a s IH]; [done|].
  by rewrite !append_String, IH.
Qed.

Lemma append_nil_r s : (s ++ EmptyString)%string = s.
Proof.
  induction s as [|a s IH]; [done|].
  by rewrite append_String, IH.
Qed.

Lemma concat_cons s (l : list string) :
  String.concat EmptyString (s :: l)
  = (s ++ String.concat EmptyString l)%string.
Proof. destruct l; simpl; [by rewrite append_nil_r|done]. Qed.

Lemma encode_value_supported (v : PyValue) :
  supported v = true ->
  exists arg text, encode_value v = Ok (arg, text).
Proof. destruct v; simpl; try done; eauto. Qed.

(** The loop adds the text of each argument, in order. *)
Lemma apk_args_loop_supported s items :
  Forall (fun item => supported (snd item) = true) items ->
  apk_args_loop s items
  = Ok (s ++ String.concat EmptyString (map arg_text items))%string.
Proof.
  intros Hall. revert s.
  induction Hall as [|[k v] items Hv _ IH]; intros s.
  - simpl. by rewrite append_nil_r.
  - cbn [apk_args_loop map]. rewrite concat_cons.
    unfold arg_text at 1. cbn [fst snd].
    destruct (encode_value_supported v Hv) as (arg & text & ->).
    rewrite IH. f_equal. by rewrite !append_assoc.
Qed.

(** The loop raises exactly when it meets a value of another type, and
    then with [ValueError]. *)
Lemma apk_args_loop_raises s items (e : exn) :
  apk_args_loop s items = Raise e <->
  e = ValueError
  /\ Exists (fun item => supported (snd item) = false) items.
Proof.
  revert s. induction items as [|[k v] items IH]; intros s.
  - simpl. split; [done|]. by intros [_ H%Exists_nil].
  - cbn [apk_args_loop]. destruct v; cbn [encode_value].
    1-4: rewrite IH; split; intros [-> Hex]; (split; [done|]);
      [by right|by apply Exists_cons in Hex as [?|?]].
    split.
    + intros [= <-]. split; [done|]. by left.
    + by intros [-> _].
Qed.

End LaunchFacts.

(** X15.  [build_apk_launch_command] raises exactly when arguments are
    given and one of their values is neither a string, a float, a boolean
    nor an integer; it then raises [ValueError], and in every other case
    it returns a command. *)
Theorem build_apk_launch_command_raises (package activity : option string)
    (apk_args : option (list (string * PyValue))) :
  (forall e, build_apk_launch_command package activity apk_args = Raise e <->
     e = ValueError
     /\ exists items,
          apk_args = Some items
          /\ Exists (fun item => LaunchNotions.supported (snd item) = false)
               items)
  /\ ((forall items, apk_args = Some items ->
         Forall (fun item => LaunchNotions.supported (snd item) = true)
           items) ->
      exists command,
        build_apk_launch_command package activity apk_args = Ok command).
Proof.
  assert (forall items : list (string * PyValue),
            Py.truthy_list (Some items) = false -> items = [])
    as Hfalsy by (by intros [|? ?]).
  split.
  - intros e. unfold build_apk_launch_command.
    destruct apk_args as [items|]; cycle 1.
    { simpl. split; [destruct (negb (Py.truthy_str activity)); intros [=]|].
      by intros (_ & ? & ? & _). }
    change (default [] (Some items)) with items.
    destruct (Py.truthy_list (Some items)) eqn:Htruthy.
    + pose proof (apk_args_loop_raises EmptyString items e) as Hloop.
      destruct (apk_args_loop EmptyString items) as [s|e'].
      * split; [destruct (negb (Py.truthy_str activity)); intros [=]|].
        intros (-> & items' & Heq & Hex). injection Heq as <-.
        discriminate (proj2 Hloop (conj eq_refl Hex)).
      * split.
        -- intros [= ->]. destruct (proj1 Hloop eq_refl) as [-> Hex].
           split; [done|]. by exists items.
        -- intros (-> & items' & Heq & Hex). injection Heq as <-.
           by rewrite (proj2 Hloop (conj eq_refl Hex)).
    + apply Hfalsy in Htruthy as ->.
      split; [destruct (negb (Py.truthy_str activity)); intros [=]|].
      intros (_ & items' & Heq & Hex). injection Heq as <-.
      by apply Exists_nil in Hex.
  - intros Hall. unfold build_apk_launch_command.
    destruct apk_args as [items|]; cycle 1.
    { simpl. destruct (negb (Py.truthy_str activity)); eauto. }
    change (default [] (Some items)) with items.
    destruct (Py.truthy_list (Some items)).
    + rewrite apk_args_loop_supported by (by apply Hall).
      destruct (negb (Py.truthy_str activity)); eauto.
    + destruct (negb (Py.truthy_str activity)); eauto.
Qed.

Lemma build_apk_launch_command_raises_witness :
  exists command,
    build_apk_launch_command (Some "com.example.app"%string) None
      (Some [("iterations"%string, VInt 3); ("tag"%string, VStr "a b")])
    = Ok command.
Proof.
  destruct (build_apk_launch_command_raises (Some "com.example.app"%string)
              None
              (Some [("iterations"%string, VInt 3);
                     ("tag"%string, VStr "a b")])) as [_ Hok].
  apply Hok. intros items [= <-]. by repeat constructor.
Defined.

(** X16.  When every value can be encoded, the command is its head, which
    names the package, or with [-n] the package and the activity, followed
    by the text of each argument in the order of the dict; without
    arguments it is the head alone, and an empty activity counts as none.
    Commands compose: the command for two runs of arguments is the command
    for the first run followed by the texts of the second. *)
Theorem build_apk_launch_command_layout (package activity : option string)
    (items more : list (string * PyValue)) :
  Forall (fun item => LaunchNotions.supported (snd item) = true) items ->
  Forall (fun item => LaunchNotions.supported (snd item) = true) more ->
  build_apk_launch_command package activity (Some items)
  = Ok (LaunchNotions.head package activity
        ++ String.concat EmptyString (map LaunchNotions.arg_text items))%string
  /\ build_apk_launch_command package activity None
     = Ok (LaunchNotions.head package activity)
  /\ build_apk_launch_command package (Some EmptyString) (Some items)
     = build_apk_launch_command package None (Some items)
  /\ build_apk_launch_command package activity (Some (items ++ more))
     = Ok (LaunchNotions.head package activity
           ++ String.concat EmptyString (map LaunchNotions.arg_text items)
           ++ String.concat EmptyString (map LaunchNotions.arg_text more))%string.
Proof.
  intros Hitems Hmore.
  assert (forall l,
            Forall (fun item => LaunchNotions.supported (snd item) = true) l ->
            build_apk_launch_command package activity (Some l)
            = Ok (LaunchNotions.head package activity
                  ++ String.concat EmptyString
                       (map LaunchNotions.arg_text l))%string) as Hlayout.
  { intros l Hl. unfold build_apk_launch_command, LaunchNotions.head.
    change (default [] (Some l)) with l.
    destruct (Py.truthy_list (Some l)) eqn:Htruthy.
    - rewrite apk_args_loop_supported by done.
      rewrite (append_String " ").
      destruct (negb (Py.truthy_str activity)); by rewrite !append_assoc.
    - assert (l = []) as -> by (by destruct l).
      simpl. destruct (negb (Py.truthy_str activity));
        by rewrite !append_assoc. }
  split; [by apply Hlayout|]. split; [|split].
  - unfold build_apk_launch_command, LaunchNotions.head. simpl.
    destruct (negb _); by rewrite ?append_nil_r, ?append_assoc.
  - done.
  - rewrite Hlayout by (by apply Forall_app).
    f_equal. f_equal. rewrite map_app.
    generalize (map LaunchNotions.arg_text items) as l1.
    induction l1 as [|x l1 IH]; [done|].
    change ((x :: l1) ++ map LaunchNotions.arg_text more)
      with (x :: (l1 ++ map LaunchNotions.arg_text more)).
    by rewrite !concat_cons, IH, append_assoc.
Qed.

Lemma build_apk_launch_command_layout_witness :
  build_apk_launch_command (Some "com.example.app"%string)
    (Some ".Main"%string)
    (Some [("iterations"%string, VInt 3); ("tag"%string, VStr "a b")])
  = Ok "am start -W -n com.example.app/.Main  --ei iterations 3 --es tag 'a b'"%string.
Proof.
  destruct (build_apk_launch_command_layout (Some "com.example.app"%string)
              (Some ".Main"%string)
              [("iterations"%string, VInt 3); ("tag"%string, VStr "a b")] [])
    as [Hlayout _]; [by repeat constructor|constructor|].
  rewrite Hlayout. reflexivity.
Defined.

(** ** A version against itself, and the two UI-automation requests *)

Section SelfMatchFacts.

Import Types.

Lemma atom_eqb_refl (x : atom) : atom_eqb x x = true.
Proof. by apply atom_eqb_eq. Qed.

Lemma tuple_le_refl (v : list atom) : tuple_le v v = true.
Proof.
  unfold tuple_le. induction v as [|x v IH]; simpl; [done|].
  by rewrite atom_eqb_refl.
Qed.

Lemma tuple_ge_refl (v : list atom) : tuple_ge v v = true.
Proof.
  unfold tuple_ge. induction v as [|x v IH]; simpl; [done|].
  by rewrite atom_eqb_refl.
Qed.

End SelfMatchFacts.

(** X17.  A version name that is not empty lies in the range whose two
    bounds are that version, and in every range with one bound missing and
    the other that version; it also loosely matches itself. *)
Theorem version_matches_itself (v : string) :
  v <> EmptyString ->
  range_version_matching (Some v) (Some v) (Some v) = true
  /\ range_version_matching (Some v) (Some v) None = true
  /\ range_version_matching (Some v) None (Some v) = true
  /\ loose_version_matching v (Some v) = Ok true.
Proof.
  intros Hne.
  assert (Py.truthy_str (Some v) = true) as Htruthy.
  { simpl. by rewrite (proj2 (String.eqb_neq _ _) Hne). }
  unfold range_version_matching. rewrite Htruthy. cbn [negb default andb].
  rewrite tuple_gt_not_le, tuple_lt_not_ge, tuple_le_refl, tuple_ge_refl.
  repeat split. by apply loose_version_matching_true.
Qed.

Lemma version_matches_itself_witness :
  range_version_matching (Some "2.5.1-beta"%string)
    (Some "2.5.1-beta"%string) (Some "2.5.1-beta"%string) = true.
Proof. by apply (version_matches_itself "2.5.1-beta"). Defined.

(** X18.  For a path whose metadata the accessor gives, exactly one of
    the two requests [uiauto=True] and [uiauto=False] is accepted by the
    UI-automation matcher; for the empty path, which has no metadata, both
    are rejected. *)
Theorem uiauto_test_matches_exclusive (path : string) (w : World)
    (info : ApkInfo.t) :
  fst (get_cacheable_apk_info (Some path) w) = Ok (Some info) ->
  (exists b,
     fst (uiauto_test_matches path true w) = Ok b
     /\ fst (uiauto_test_matches path false w) = Ok (negb b)
     /\ b = Str.contains "com.arm.wa.uiauto"
              (default EmptyString (ApkInfo.package info)))
  /\ forall uiauto w0,
       fst (uiauto_test_matches EmptyString uiauto w0) = Ok false.
Proof.
  intros Hget. split.
  - pose proof (uiauto_test_matches_run w path true) as Htrue.
    pose proof (uiauto_test_matches_run w path false) as Hfalse.
    destruct (get_cacheable_apk_info (Some path) w) as [[i|e] w1];
      [|discriminate]. simpl in Hget. injection Hget as ->.
    destruct Htrue as [-> _], Hfalse as [-> _]. simpl.
    exists (Str.contains "com.arm.wa.uiauto"
              (default EmptyString (ApkInfo.package info))).
    by destruct (Str.contains _ _).
  - done.
Qed.

Lemma uiauto_test_matches_exclusive_witness :
  fst (uiauto_test_matches "/apks/uiauto.apk" true Sample.world0) = Ok true
  /\ fst (uiauto_test_matches "/apks/uiauto.apk" false Sample.world0)
     = Ok false.
Proof.
  destruct (uiauto_test_matches_exclusive "/apks/uiauto.apk" Sample.world0
              Sample.uiauto_info) as [(b & Htrue & Hfalse & ->) _];
    [by vm_compute|].
  by rewrite Htrue, Hfalse.
Defined.
